(** * DesktopManager: the registry of per-(activity, desktop, screen) desktops

    A shallow embedding of [src/lib/world/DesktopManager.ts].  The class keeps
    a JavaScript [Map] from a string key to a [Desktop] object and three
    [Set]s caching the host's activities, virtual desktops and screens.  Its
    methods are embedded in a small state monad over a [World] that holds the
    manager's fields together with what is needed to observe object identity
    ([new Desktop]) and the calls of [Desktop.destroy]. *)

From Stdlib Require Import List String Ascii Bool Arith Lia Permutation.
Import ListNotations.

(** ** JavaScript values *)

(** [SameValueZero] is the equality that [Set] and [Map] use on their
    elements and keys: strings by content, objects by reference. *)
Class SameValueZero (T : Type) := {
  same : T -> T -> bool;
  same_spec : forall x y : T, reflect (x = y) (same x y)
}.

#[export] Instance SameValueZero_string : SameValueZero string :=
  {| same := String.eqb; same_spec := String.eqb_spec |}.

(** A host virtual desktop: an object (its reference is [kd_obj]) with an
    [id] field.  Two values of this record are the same object iff they are
    equal; the reference is part of the value. *)
Record KwinDesktop : Type := mkKwinDesktop { kd_obj : nat; id : string }.

(** A host output (screen): an object with a [name] field. *)
Record Output : Type := mkOutput { out_obj : nat; name : string }.

Definition KwinDesktop_same (x y : KwinDesktop) : bool :=
  Nat.eqb (kd_obj x) (kd_obj y) && String.eqb (id x) (id y).

Definition Output_same (x y : Output) : bool :=
  Nat.eqb (out_obj x) (out_obj y) && String.eqb (name x) (name y).

Lemma KwinDesktop_same_spec (x y : KwinDesktop) : reflect (x = y) (KwinDesktop_same x y).
Proof.
  destruct x as [r i], y as [r' i']; unfold KwinDesktop_same; simpl.
  destruct (Nat.eqb_spec r r') as [->|Hr]; simpl.
  - destruct (String.eqb_spec i i') as [->|Hi]; constructor; congruence.
  - constructor; congruence.
Qed.

Lemma Output_same_spec (x y : Output) : reflect (x = y) (Output_same x y).
Proof.
  destruct x as [r n], y as [r' n']; unfold Output_same; simpl.
  destruct (Nat.eqb_spec r r') as [->|Hr]; simpl.
  - destruct (String.eqb_spec n n') as [->|Hn]; constructor; congruence.
  - constructor; congruence.
Qed.

#[export] Instance SameValueZero_KwinDesktop : SameValueZero KwinDesktop :=
  {| same := KwinDesktop_same; same_spec := KwinDesktop_same_spec |}.

#[export] Instance SameValueZero_Output : SameValueZero Output :=
  {| same := Output_same; same_spec := Output_same_spec |}.

(** Modelled from the spec: the class [Desktop] (the logical desktop) is not
    part of the source file.  The registry only constructs it, with the
    virtual desktop and the screen (the pin manager, the configurations and
    the focus passer are handed over unchanged and are left out), and calls
    its [destroy] hook.  An instance is its object reference together with
    the two constructor arguments that identify it. *)
Record Desktop : Type := mkDesktop {
  desktop_obj : nat;
  kwinDesktop : KwinDesktop;
  screen : Output
}.

Definition Desktop_same (x y : Desktop) : bool :=
  Nat.eqb (desktop_obj x) (desktop_obj y)
  && same (kwinDesktop x) (kwinDesktop y) && same (screen x) (screen y).

Lemma Desktop_same_spec (x y : Desktop) : reflect (x = y) (Desktop_same x y).
Proof.
  destruct x as [r d s], y as [r' d' s']; unfold Desktop_same; simpl.
  destruct (Nat.eqb_spec r r') as [->|Hr]; simpl; [|constructor; congruence].
  destruct (KwinDesktop_same_spec d d') as [->|Hd]; simpl; [|constructor; congruence].
  destruct (Output_same_spec s s') as [->|Hs]; constructor; congruence.
Qed.

Definition Desktop_eq_dec (x y : Desktop) : {x = y} + {x <> y}.
Proof. destruct (Desktop_same_spec x y); [left|right]; assumption. Defined.

(** ** JavaScript [Set]: insertion ordered, no duplicates *)

Section JSSet.
Context {T : Type} `{SameValueZero T}.

Definition Set_has (s : list T) (x : T) : bool := existsb (same x) s.

Definition Set_add (s : list T) (x : T) : list T :=
  if Set_has s x then s else s ++ [x].

(** [new Set(iterable)] *)
Definition new_Set (xs : list T) : list T := fold_left Set_add xs [].
End JSSet.

(** ** JavaScript [Map<string, Desktop>]: entries in insertion order *)

Definition JSMap : Type := list (string * Desktop).

Fixpoint Map_get (k : string) (m : JSMap) : option Desktop :=
  match m with
  | [] => None
  | (k', v) :: m' => if String.eqb k k' then Some v else Map_get k m'
  end.

(** [set] overwrites in place when the key is present and appends otherwise. *)
Fixpoint Map_set (k : string) (v : Desktop) (m : JSMap) : JSMap :=
  match m with
  | [] => [(k, v)]
  | (k', v') :: m' =>
      if String.eqb k k' then (k, v) :: m' else (k', v') :: Map_set k v m'
  end.

Definition Map_delete (k : string) (m : JSMap) : JSMap :=
  filter (fun e => negb (String.eqb k (fst e))) m.

Definition Map_values (m : JSMap) : list Desktop := map snd m.

Definition Map_keys (m : JSMap) : list string := map fst m.

(** A source of a [for ... of] loop.  An array is traversed from its start by
    every loop over it.  An iterator object (what [Set.prototype.keys]
    returns) is its own iterator: a loop takes what is left of it and leaves
    it exhausted, so that a second loop over the same object sees nothing. *)
Inductive Iterable (T : Type) : Type :=
| Array (elements : list T)
| Iterator (remaining : list T).

Arguments Array {T} elements.
Arguments Iterator {T} remaining.

(** The elements one loop over the source visits, and the source afterwards. *)
Definition iterate {T : Type} (src : Iterable T) : list T * Iterable T :=
  match src with
  | Array xs => (xs, Array xs)
  | Iterator rest => (rest, Iterator [])
  end.

(** [set.keys()] *)
Definition Set_keys {T : Type} (s : list T) : Iterable T := Iterator s.

(** ** The host *)

(** The global [Workspace] of the compositor, as the manager reads it. *)
Module Workspace.
Record t : Type := mk {
  activities : list string;
  desktops : list KwinDesktop;
  screens : list Output;
  currentActivity : string;
  currentDesktop : KwinDesktop;
  activeScreen : Output
}.
End Workspace.

Module KwinClient.
Record t : Type := mk {
  activities : list string;
  desktops : list KwinDesktop;
  output : Output
}.
End KwinClient.

(** ** The state *)

(** The fields of a [DesktopManager] that change. *)
Record DesktopManager : Type := mkDesktopManager {
  desktops : JSMap;
  kwinActivities : list string;
  kwinDesktops : list KwinDesktop;
  kwinScreens : list Output
}.

(** The manager ([this]) together with the number of [Desktop] objects
    allocated so far and the [destroy] calls made so far, oldest first. *)
Record World : Type := mkWorld {
  this : DesktopManager;
  allocated : nat;
  destroyCalls : list Desktop
}.

(** ** A state monad for the methods *)

Definition M (A : Type) : Type := World -> A * World.

Definition ret {A : Type} (a : A) : M A := fun w => (a, w).

Definition bind {A B : Type} (m : M A) (k : A -> M B) : M B :=
  fun w => k (fst (m w)) (snd (m w)).

Declare Scope js_scope.
Delimit Scope js_scope with js.
Notation "x <- m ;; k" := (bind m (fun x => k))
  (at level 61, m at next level, right associativity) : js_scope.
Notation "m ;; k" := (bind m (fun _ => k))
  (at level 61, right associativity) : js_scope.
Open Scope js_scope.

(** The result of a method and the state it leaves. *)
Definition result {A : Type} (m : M A) (w : World) : A := fst (m w).
Definition exec {A : Type} (m : M A) (w : World) : World := snd (m w).

(** [for (const x of xs) body] *)
Fixpoint for_of {A : Type} (xs : list A) (body : A -> M unit) : M unit :=
  match xs with
  | [] => ret tt
  | x :: xs' => body x ;; for_of xs' body
  end.

(** A loop inside a generator that is run to its end: the values the body
    yields, in order. *)
Fixpoint for_yield {A B : Type} (xs : list A) (body : A -> M (list B)) : M (list B) :=
  match xs with
  | [] => ret []
  | x :: xs' => ys <- body x ;; zs <- for_yield xs' body ;; ret (ys ++ zs)
  end.

Definition read_this : M DesktopManager := fun w => (this w, w).

Definition write_this (f : DesktopManager -> DesktopManager) : M unit :=
  fun w => (tt, mkWorld (f (this w)) (allocated w) (destroyCalls w)).

(** [this.desktops.get(key)] *)
Definition desktops_get (key : string) : M (option Desktop) :=
  self <- read_this ;; ret (Map_get key (desktops self)).

(** [this.desktops.set(key, desktop)] *)
Definition desktops_set (key : string) (desktop : Desktop) : M unit :=
  write_this (fun self =>
    mkDesktopManager (Map_set key desktop (desktops self))
      (kwinActivities self) (kwinDesktops self) (kwinScreens self)).

(** [this.desktops.delete(key)] *)
Definition desktops_delete (key : string) : M unit :=
  write_this (fun self =>
    mkDesktopManager (Map_delete key (desktops self))
      (kwinActivities self) (kwinDesktops self) (kwinScreens self)).

(** Modelled from the spec: [new Desktop(kwinDesktop, ..., screen, ...)], the
    constructor of the absent class, gives an object that did not exist
    before, bound to the virtual desktop and the screen. *)
Definition new_Desktop (kwinDesktop : KwinDesktop) (screen : Output) : M Desktop :=
  fun w => (mkDesktop (allocated w) kwinDesktop screen,
            mkWorld (this w) (S (allocated w)) (destroyCalls w)).

(** Modelled from the spec: [desktop.destroy()], the teardown hook of the
    absent class; the call is recorded. *)
Definition Desktop_destroy (desktop : Desktop) : M unit :=
  fun w => (tt, mkWorld (this w) (allocated w) (destroyCalls w ++ [desktop])).

(** ** The methods of [DesktopManager] *)

(** [getDesktopKey]: [activity + "|" + kwinDesktop.id + "|" + screen.name]. *)
Definition getDesktopKey (activity : string) (kwinDesktop : KwinDesktop) (screen : Output) : string :=
  ((((activity ++ "|") ++ id kwinDesktop) ++ "|") ++ name screen)%string.

(** The constructor: an empty map and the host's three sets as they are. *)
Definition constructor (ws : Workspace.t) : DesktopManager :=
  mkDesktopManager []
    (new_Set (Workspace.activities ws))
    (new_Set (Workspace.desktops ws))
    (new_Set (Workspace.screens ws)).

Definition addDesktop (activity : string) (kwinDesktop : KwinDesktop) (screen : Output) : M Desktop :=
  let desktopKey := getDesktopKey activity kwinDesktop screen in
  desktop <- new_Desktop kwinDesktop screen ;;
  desktops_set desktopKey desktop ;;
  ret desktop.

Definition destroyDesktop (activity : string) (kwinDesktop : KwinDesktop) (screen : Output) : M unit :=
  let desktopKey := getDesktopKey activity kwinDesktop screen in
  desktop <- desktops_get desktopKey ;;
  match desktop with
  | Some desktop => Desktop_destroy desktop ;; desktops_delete desktopKey
  | None => ret tt
  end.

Definition removeActivity (activity : string) : M unit :=
  self <- read_this ;;
  for_of (kwinDesktops self) (fun kwinDesktop =>
    self <- read_this ;;
    for_of (kwinScreens self) (fun screen =>
      destroyDesktop activity kwinDesktop screen)).

Definition removeKwinDesktop (kwinDesktop : KwinDesktop) : M unit :=
  self <- read_this ;;
  for_of (kwinActivities self) (fun activity =>
    self <- read_this ;;
    for_of (kwinScreens self) (fun screen =>
      destroyDesktop activity kwinDesktop screen)).

Definition removeScreen (screen : Output) : M unit :=
  self <- read_this ;;
  for_of (kwinActivities self) (fun activity =>
    self <- read_this ;;
    for_of (kwinDesktops self) (fun kwinDesktop =>
      destroyDesktop activity kwinDesktop screen)).

Definition updateActivities (ws : Workspace.t) : M unit :=
  let newActivities := new_Set (Workspace.activities ws) in
  self <- read_this ;;
  for_of (kwinActivities self) (fun activity =>
    if negb (Set_has newActivities activity) then removeActivity activity else ret tt) ;;
  write_this (fun self =>
    mkDesktopManager (desktops self) newActivities (kwinDesktops self) (kwinScreens self)).

Definition updateDesktops (ws : Workspace.t) : M unit :=
  let newDesktops := new_Set (Workspace.desktops ws) in
  self <- read_this ;;
  for_of (kwinDesktops self) (fun desktop =>
    if negb (Set_has newDesktops desktop) then removeKwinDesktop desktop else ret tt) ;;
  write_this (fun self =>
    mkDesktopManager (desktops self) (kwinActivities self) newDesktops (kwinScreens self)).

Definition updateScreens (ws : Workspace.t) : M unit :=
  let newScreens := new_Set (Workspace.screens ws) in
  self <- read_this ;;
  for_of (kwinScreens self) (fun screen =>
    if negb (Set_has newScreens screen) then removeScreen screen else ret tt) ;;
  write_this (fun self =>
    mkDesktopManager (desktops self) (kwinActivities self) (kwinDesktops self) newScreens).

(** [destroy]: the teardown of the whole registry. *)
Definition destroy : M unit :=
  self <- read_this ;;
  for_of (Map_values (desktops self)) (fun desktop => Desktop_destroy desktop).

(** The generators, run to their end: the result is the list of the values
    yielded. *)
Definition getAllDesktops : M (list Desktop) :=
  self <- read_this ;;
  for_yield (Map_values (desktops self)) (fun desktop => ret [desktop]).

Definition getDesktopsOnCurrentDesktopAndActivity (ws : Workspace.t) : M (list Desktop) :=
  let activity := Workspace.currentActivity ws in
  let kwinDesktop := Workspace.currentDesktop ws in
  self <- read_this ;;
  for_yield (kwinScreens self) (fun screen =>
    let desktopKey := getDesktopKey activity kwinDesktop screen in
    desktop <- desktops_get desktopKey ;;
    match desktop with
    | Some desktop => ret [desktop]
    | None => ret []
    end).

(** The two outer loops of [getDesktops].  [matchedDesktops] is a local of
    the generator: the loop over it runs once for every matched activity, on
    the same object each time, so what one run leaves of it is what the next
    run gets. *)
Fixpoint getDesktops_loop (matchedActivities : list string)
    (matchedDesktops : Iterable KwinDesktop) : M (list Desktop) :=
  match matchedActivities with
  | [] => ret []
  | matchedActivity :: rest =>
      let (visited, matchedDesktops') := iterate matchedDesktops in
      ys <- for_yield visited (fun matchedDesktop =>
              self <- read_this ;;
              for_yield (kwinScreens self) (fun screen =>
                let desktopKey := getDesktopKey matchedActivity matchedDesktop screen in
                desktop <- desktops_get desktopKey ;;
                match desktop with
                | Some desktop => ret [desktop]
                | None => ret []
                end)) ;;
      zs <- getDesktops_loop rest matchedDesktops' ;;
      ret (ys ++ zs)
  end.

(** [getDesktops]: an empty array stands for the cached set, through
    [keys()]. *)
Definition getDesktops (activities : list string) (kwinDesktops' : list KwinDesktop) : M (list Desktop) :=
  self <- read_this ;;
  let matchedActivities :=
    if 0 <? List.length activities then Array activities else Set_keys (kwinActivities self) in
  let matchedDesktops :=
    if 0 <? List.length kwinDesktops' then Array kwinDesktops' else Set_keys (kwinDesktops self) in
  getDesktops_loop (fst (iterate matchedActivities)) matchedDesktops.

Definition getDesktopsForClient (kwinClient : KwinClient.t) : M (list Desktop) :=
  getDesktops (KwinClient.activities kwinClient) (KwinClient.desktops kwinClient).

Section Lookup.
(** [this.desktopFilter.shouldWorkOnDesktop], the injected filter. *)
Variable shouldWorkOnDesktop : KwinDesktop -> bool.

Definition getDesktop (activity : string) (kwinDesktop : KwinDesktop) (screen : Output)
  : M (option Desktop) :=
  if negb (shouldWorkOnDesktop kwinDesktop) then ret None
  else
    let desktopKey := getDesktopKey activity kwinDesktop screen in
    desktop <- desktops_get desktopKey ;;
    match desktop with
    | Some desktop => ret (Some desktop)
    | None => desktop <- addDesktop activity kwinDesktop screen ;; ret (Some desktop)
    end.

Definition getCurrentDesktop (ws : Workspace.t) : M (option Desktop) :=
  getDesktop (Workspace.currentActivity ws) (Workspace.currentDesktop ws)
    (Workspace.activeScreen ws).

Definition getDesktopInCurrentActivity (ws : Workspace.t)
    (kwinDesktop : KwinDesktop) (screen : Output) : M (option Desktop) :=
  getDesktop (Workspace.currentActivity ws) kwinDesktop screen.

Definition getDesktopForClient (kwinClient : KwinClient.t) : M (option Desktop) :=
  match KwinClient.activities kwinClient, KwinClient.desktops kwinClient with
  | [activity], [kwinDesktop] => getDesktop activity kwinDesktop (KwinClient.output kwinClient)
  | _, _ => ret None
  end.
End Lookup.

(** ** Examples on a small host *)

Module Ex.
Definition D1 : KwinDesktop := mkKwinDesktop 1 "d1".
Definition D2 : KwinDesktop := mkKwinDesktop 2 "d2".
Definition S1 : Output := mkOutput 11 "HDMI-1".
Definition ws0 : Workspace.t := Workspace.mk ["A"; "B"]%string [D1; D2] [S1] "A"%string D1 S1.
Definition w0 : World := mkWorld (constructor ws0) 0 [].
Definition all (_ : KwinDesktop) : bool := true.
(** After the lookups of (A, D1, S1) and (B, D1, S1). *)
Definition w2 : World :=
  exec (getDesktop all "B" D1 S1) (exec (getDesktop all "A" D1 S1) w0).
End Ex.

(** * Properties *)

(** ** Keys *)

Definition sep : ascii := "|"%char.

(** No ["|"] occurs in the string. *)
Fixpoint sep_free (s : string) : bool :=
  match s with
  | EmptyString => true
  | String c s' => negb (Ascii.eqb c sep) && sep_free s'
  end.

(** The part of a string before its first ["|"] and the part after it. *)
Fixpoint split_sep (s : string) : option (string * string) :=
  match s with
  | EmptyString => None
  | String c s' =>
      if Ascii.eqb c sep then Some (EmptyString, s')
      else match split_sep s' with
           | Some (a, r) => Some (String c a, r)
           | None => None
           end
  end.

(** The three components of a key, read back from the string. *)
Definition parseKey (k : string) : option (string * string * string) :=
  match split_sep k with
  | Some (a, r) =>
      match split_sep r with
      | Some (i, n) => Some (a, i, n)
      | None => None
      end
  | None => None
  end.

Lemma string_append_assoc (a b c : string) :
  ((a ++ b) ++ c)%string = (a ++ (b ++ c))%string.
Proof. induction a as [|x a IH]; simpl; [reflexivity | now rewrite IH]. Qed.

Lemma getDesktopKey_eq (a : string) (d : KwinDesktop) (s : Output) :
  getDesktopKey a d s = (a ++ String sep (id d ++ String sep (name s)))%string.
Proof.
  unfold getDesktopKey. now rewrite !string_append_assoc.
Qed.

Lemma split_sep_append (a r : string) :
  sep_free a = true -> split_sep (a ++ String sep r) = Some (a, r).
Proof.
  induction a as [|c a IH]; simpl; intros Hf.
  - reflexivity.
  - apply andb_true_iff in Hf as [Hc Ha].
    apply negb_true_iff in Hc. rewrite Hc, (IH Ha). reflexivity.
Qed.

Lemma parseKey_getDesktopKey (a : string) (d : KwinDesktop) (s : Output) :
  sep_free a = true -> sep_free (id d) = true ->
  parseKey (getDesktopKey a d s) = Some (a, id d, name s).
Proof.
  intros Ha Hd. rewrite getDesktopKey_eq. unfold parseKey.
  rewrite split_sep_append by assumption. rewrite split_sep_append by assumption.
  reflexivity.
Qed.

Lemma getDesktopKey_inj (a a' : string) (d d' : KwinDesktop) (s s' : Output) :
  sep_free a = true -> sep_free a' = true ->
  sep_free (id d) = true -> sep_free (id d') = true ->
  getDesktopKey a d s = getDesktopKey a' d' s' ->
  a = a' /\ id d = id d' /\ name s = name s'.
Proof.
  intros Ha Ha' Hd Hd' E.
  pose proof (parseKey_getDesktopKey a d s Ha Hd) as P.
  rewrite E, (parseKey_getDesktopKey a' d' s' Ha' Hd') in P.
  inversion P. auto.
Qed.

(** C3, as stated, fails: the separator may occur inside a component, and
    then two different triples are written as the same string. *)
Lemma getDesktopKey_not_structural :
  ~ (forall (a a' : string) (d d' : KwinDesktop) (s s' : Output),
        getDesktopKey a d s = getDesktopKey a' d' s' <->
        (a = a' /\ id d = id d' /\ name s = name s')).
Proof.
  intros H.
  destruct (H "a|b"%string "a"%string (mkKwinDesktop 1 "c") (mkKwinDesktop 2 "b|c")
              (mkOutput 3 "s") (mkOutput 3 "s")) as [H1 _].
  destruct (H1 eq_refl) as [E _]. discriminate E.
Qed.

(** C3, amended: equal activities, desktop ids and screen names give equal
    keys, whatever the strings are; and when the two activities and the two
    desktop ids hold no ["|"], equal keys have equal activities, desktop ids
    and screen names. *)
Theorem getDesktopKey_structural_sep_free
    (a a' : string) (d d' : KwinDesktop) (s s' : Output) :
  ((a = a' /\ id d = id d' /\ name s = name s') ->
   getDesktopKey a d s = getDesktopKey a' d' s')
  /\ (sep_free a = true -> sep_free a' = true ->
      sep_free (id d) = true -> sep_free (id d') = true ->
      getDesktopKey a d s = getDesktopKey a' d' s' ->
      a = a' /\ id d = id d' /\ name s = name s').
Proof.
  split.
  - intros (-> & E1 & E2). unfold getDesktopKey. now rewrite E1, E2.
  - intros Ha Ha' Hd Hd'. now apply getDesktopKey_inj.
Qed.

Lemma getDesktopKey_structural_sep_free_witness :
  getDesktopKey "a|b" (mkKwinDesktop 1 "c|d") (mkOutput 3 "s")
  = getDesktopKey "a|b" (mkKwinDesktop 2 "c|d") (mkOutput 4 "s")
  /\ ("A"%string = "A"%string /\ id Ex.D1 = id (mkKwinDesktop 7 "d1")
      /\ name Ex.S1 = name (mkOutput 8 "HDMI-1")).
Proof.
  split.
  - apply (proj1 (getDesktopKey_structural_sep_free "a|b" "a|b"
             (mkKwinDesktop 1 "c|d") (mkKwinDesktop 2 "c|d") (mkOutput 3 "s") (mkOutput 4 "s"))).
    repeat split.
  - apply (proj2 (getDesktopKey_structural_sep_free "A" "A" Ex.D1 (mkKwinDesktop 7 "d1")
             Ex.S1 (mkOutput 8 "HDMI-1"))); reflexivity.
Defined.

(** ** Sets and maps *)

Section JSSetFacts.
Context {T : Type} `{SameValueZero T}.

Lemma Set_has_In (s : list T) (x : T) : Set_has s x = true <-> In x s.
Proof.
  unfold Set_has. rewrite existsb_exists. split.
  - intros (y & Hy & E). destruct (same_spec x y); [subst; assumption | discriminate].
  - intros Hx. exists x. split; [assumption|].
    destruct (same_spec x x); [reflexivity | contradiction].
Qed.

Lemma Set_has_not_In (s : list T) (x : T) : Set_has s x = false <-> ~ In x s.
Proof.
  rewrite <- Set_has_In. destruct (Set_has s x); split; congruence.
Qed.

Lemma Set_add_In (s : list T) (x y : T) : In y (Set_add s x) <-> In y s \/ y = x.
Proof.
  unfold Set_add. destruct (Set_has s x) eqn:E.
  - apply Set_has_In in E. split; [auto | intros [?| ->]; assumption].
  - rewrite in_app_iff; simpl. intuition congruence.
Qed.

Lemma fold_Set_add_In (xs s : list T) (y : T) :
  In y (fold_left Set_add xs s) <-> In y s \/ In y xs.
Proof.
  revert s. induction xs as [|x xs IH]; intros s; simpl.
  - tauto.
  - rewrite IH, Set_add_In. intuition congruence.
Qed.

(** A set built from a list has the elements of the list. *)
Lemma new_Set_In (xs : list T) (y : T) : In y (new_Set xs) <-> In y xs.
Proof. unfold new_Set. rewrite fold_Set_add_In. simpl. tauto. Qed.

Lemma Set_add_NoDup (s : list T) (x : T) : NoDup s -> NoDup (Set_add s x).
Proof.
  intros Hs. unfold Set_add. destruct (Set_has s x) eqn:E; [assumption|].
  apply Set_has_not_In in E.
  apply NoDup_app; [assumption | repeat constructor; simpl; tauto |].
  intros y Hy [<-|[]]. contradiction.
Qed.

Lemma new_Set_NoDup (xs : list T) : NoDup (new_Set xs).
Proof.
  unfold new_Set. generalize (NoDup_nil T). generalize (@nil T).
  induction xs as [|x xs IH]; intros s Hs; simpl; [assumption|].
  apply IH, Set_add_NoDup, Hs.
Qed.
End JSSetFacts.

Lemma Map_get_In (k : string) (m : JSMap) (v : Desktop) :
  Map_get k m = Some v -> In (k, v) m.
Proof.
  induction m as [|[k' v'] m IH]; simpl; [discriminate|].
  destruct (String.eqb_spec k k') as [->|Hk].
  - intros [= ->]. now left.
  - intros Hg. right. now apply IH.
Qed.

Lemma Map_get_None (k : string) (m : JSMap) :
  Map_get k m = None <-> ~ In k (Map_keys m).
Proof.
  induction m as [|[k' v'] m IH]; simpl; [tauto|].
  destruct (String.eqb_spec k k') as [->|Hk].
  - split; [discriminate | intros Hn; exfalso; apply Hn; now left].
  - rewrite IH. intuition congruence.
Qed.

Lemma Map_get_NoDup_In (k : string) (m : JSMap) (v : Desktop) :
  NoDup (Map_keys m) -> In (k, v) m -> Map_get k m = Some v.
Proof.
  induction m as [|[k' v'] m IH]; simpl; [tauto|].
  intros Hnd [E|Hin].
  - injection E as -> ->. now rewrite String.eqb_refl.
  - inversion Hnd as [|? ? Hk' Hnd']; subst.
    destruct (String.eqb_spec k k') as [->|Hk].
    + exfalso. apply Hk'. change k' with (fst (k', v)). now apply in_map.
    + now apply IH.
Qed.

(** Filtering the entries by a condition on the key. *)
Lemma Map_get_filter (P : string -> bool) (k : string) (m : JSMap) :
  Map_get k (filter (fun e => P (fst e)) m) = if P k then Map_get k m else None.
Proof.
  induction m as [|[k' v'] m IH]; simpl.
  - now destruct (P k).
  - destruct (P k') eqn:Pk'; simpl.
    + destruct (String.eqb_spec k k') as [->|Hk]; [now rewrite Pk' | exact IH].
    + destruct (String.eqb_spec k k') as [->|Hk]; [now rewrite IH, Pk' | exact IH].
Qed.

Lemma Map_get_delete (k k' : string) (m : JSMap) :
  Map_get k' (Map_delete k m) = if String.eqb k k' then None else Map_get k' m.
Proof.
  unfold Map_delete.
  rewrite (Map_get_filter (fun x => negb (String.eqb k x))).
  now destruct (String.eqb k k').
Qed.

Lemma Map_delete_absent (k : string) (m : JSMap) :
  Map_get k m = None -> Map_delete k m = m.
Proof.
  induction m as [|[k' v'] m IH]; simpl; [reflexivity|].
  destruct (String.eqb_spec k k') as [->|Hk]; [discriminate|].
  intros Hg. simpl. now rewrite IH.
Qed.

Lemma Map_get_set (k k' : string) (v : Desktop) (m : JSMap) :
  Map_get k' (Map_set k v m) = if String.eqb k' k then Some v else Map_get k' m.
Proof.
  induction m as [|[k0 v0] m IH]; simpl.
  - reflexivity.
  - destruct (String.eqb_spec k k0) as [->|Hk]; simpl.
    + destruct (String.eqb_spec k' k0); reflexivity.
    + destruct (String.eqb_spec k' k0) as [->|Hk'].
      * destruct (String.eqb_spec k0 k); [congruence | reflexivity].
      * exact IH.
Qed.

(** Setting a key that is absent appends the entry. *)
Lemma Map_set_absent (k : string) (v : Desktop) (m : JSMap) :
  Map_get k m = None -> Map_set k v m = m ++ [(k, v)].
Proof.
  induction m as [|[k0 v0] m IH]; simpl; [reflexivity|].
  destruct (String.eqb_spec k k0) as [->|Hk]; [discriminate|].
  intros Hg. now rewrite IH.
Qed.

Lemma filter_filter {A : Type} (P Q : A -> bool) (l : list A) :
  filter P (filter Q l) = filter (fun x => Q x && P x) l.
Proof.
  induction l as [|x l IH]; simpl; [reflexivity|].
  destruct (Q x); simpl; [destruct (P x)|]; now rewrite IH.
Qed.

(** ** Loops *)

Lemma exec_for_of {A : Type} (xs : list A) (body : A -> M unit) (w : World) :
  exec (for_of xs body) w = fold_left (fun w x => exec (body x) w) xs w.
Proof.
  revert w. induction xs as [|x xs IH]; intros w; simpl; [reflexivity|].
  rewrite <- IH. reflexivity.
Qed.

(** A loop whose body leaves the state alone leaves the state alone. *)
Lemma exec_for_yield_frame {A B : Type} (xs : list A) (body : A -> M (list B)) (w : World) :
  (forall x, exec (body x) w = w) -> exec (for_yield xs body) w = w.
Proof.
  intros Hb. induction xs as [|x xs IH]; simpl; [reflexivity|].
  unfold exec, bind in *; simpl. rewrite Hb. exact IH.
Qed.

Lemma result_for_yield_frame {A B : Type} (xs : list A) (body : A -> M (list B)) (w : World) :
  (forall x, exec (body x) w = w) ->
  result (for_yield xs body) w = flat_map (fun x => result (body x) w) xs.
Proof.
  intros Hb. induction xs as [|x xs IH]; simpl; [reflexivity|].
  unfold result, exec, bind in *; simpl. rewrite Hb, IH. reflexivity.
Qed.

(** ** Destroying the entries of a list of keys *)

(** What [destroyDesktop] does to the state, by key. *)
Definition destroyKey (k : string) (w : World) : World :=
  match Map_get k (desktops (this w)) with
  | Some x =>
      mkWorld
        (mkDesktopManager (Map_delete k (desktops (this w)))
           (kwinActivities (this w)) (kwinDesktops (this w)) (kwinScreens (this w)))
        (allocated w) (destroyCalls w ++ [x])
  | None => w
  end.

Definition destroyKeys (ks : list string) (w : World) : World :=
  fold_left (fun w k => destroyKey k w) ks w.

Lemma exec_destroyDesktop (a : string) (d : KwinDesktop) (s : Output) (w : World) :
  exec (destroyDesktop a d s) w = destroyKey (getDesktopKey a d s) w.
Proof.
  unfold destroyDesktop, destroyKey, exec, bind, desktops_get, read_this, ret; simpl.
  destruct (Map_get (getDesktopKey a d s) (desktops (this w))); reflexivity.
Qed.

Lemma destroyKey_desktops (k : string) (w : World) :
  desktops (this (destroyKey k w)) = Map_delete k (desktops (this w)).
Proof.
  unfold destroyKey. destruct (Map_get k (desktops (this w))) eqn:E; simpl.
  - reflexivity.
  - symmetry. now apply Map_delete_absent.
Qed.

Lemma destroyKey_frame (k : string) (w : World) :
  kwinActivities (this (destroyKey k w)) = kwinActivities (this w)
  /\ kwinDesktops (this (destroyKey k w)) = kwinDesktops (this w)
  /\ kwinScreens (this (destroyKey k w)) = kwinScreens (this w)
  /\ allocated (destroyKey k w) = allocated w.
Proof.
  unfold destroyKey. destruct (Map_get k (desktops (this w))); simpl; auto.
Qed.

Lemma destroyKeys_frame (ks : list string) (w : World) :
  kwinActivities (this (destroyKeys ks w)) = kwinActivities (this w)
  /\ kwinDesktops (this (destroyKeys ks w)) = kwinDesktops (this w)
  /\ kwinScreens (this (destroyKeys ks w)) = kwinScreens (this w)
  /\ allocated (destroyKeys ks w) = allocated w.
Proof.
  revert w. induction ks as [|k ks IH]; intros w; simpl; [auto|].
  destruct (IH (destroyKey k w)) as (A & D & S & N).
  destruct (destroyKey_frame k w) as (A' & D' & S' & N').
  unfold destroyKeys in *. repeat split; congruence.
Qed.

Lemma destroyKeys_app (ks ks' : list string) (w : World) :
  destroyKeys (ks ++ ks') w = destroyKeys ks' (destroyKeys ks w).
Proof. unfold destroyKeys. apply fold_left_app. Qed.

(** The key is among the keys of the list. *)
Definition key_in (ks : list string) (k : string) : bool := existsb (String.eqb k) ks.

Lemma key_in_In (ks : list string) (k : string) : key_in ks k = true <-> In k ks.
Proof. exact (Set_has_In ks k). Qed.

(** The entries left are those whose key is not in the list, in their order. *)
Lemma destroyKeys_desktops (ks : list string) (w : World) :
  desktops (this (destroyKeys ks w))
  = filter (fun e => negb (key_in ks (fst e))) (desktops (this w)).
Proof.
  revert w. induction ks as [|k ks IH]; intros w; simpl.
  - induction (desktops (this w)) as [|e m IHm]; simpl; [reflexivity | now rewrite <- IHm].
  - unfold destroyKeys in *. rewrite IH, destroyKey_desktops. unfold Map_delete.
    rewrite filter_filter. apply filter_ext. intros [k' v]; simpl.
    rewrite (String.eqb_sym k' k).
    destruct (String.eqb k k'); simpl; reflexivity.
Qed.

Lemma destroyKeys_get (ks : list string) (k : string) (w : World) :
  Map_get k (desktops (this (destroyKeys ks w)))
  = if key_in ks k then None else Map_get k (desktops (this w)).
Proof.
  rewrite destroyKeys_desktops.
  rewrite (Map_get_filter (fun x => negb (key_in ks x))).
  now destruct (key_in ks k).
Qed.

(** [destroy] is called on entries of the listed keys only. *)
Lemma destroyKeys_calls (ks : list string) (w : World) :
  exists called : list Desktop,
    destroyCalls (destroyKeys ks w) = destroyCalls w ++ called
    /\ forall x, In x called ->
         exists k, In k ks /\ Map_get k (desktops (this w)) = Some x.
Proof.
  revert w. induction ks as [|k ks IH]; intros w; simpl.
  - exists []. split; [now rewrite app_nil_r | intros x []].
  - destruct (IH (destroyKey k w)) as (called & Hc & Hin).
    unfold destroyKeys in *. rewrite Hc.
    assert (Hold : forall x, In x called ->
              exists k0, In k0 (k :: ks) /\ Map_get k0 (desktops (this w)) = Some x).
    { intros x Hx. destruct (Hin x Hx) as (k0 & Hk0 & Hg).
      rewrite destroyKey_desktops, Map_get_delete in Hg.
      destruct (String.eqb k k0); [discriminate|].
      exists k0. split; [now right | assumption]. }
    unfold destroyKey. destruct (Map_get k (desktops (this w))) as [x0|] eqn:E; simpl.
    + exists (x0 :: called). split; [now rewrite <- app_assoc|].
      intros x [<-|Hx]; [exists k; split; [now left | assumption] | now apply Hold].
    + exists called. split; [reflexivity | assumption].
Qed.

(** The desktops [destroy] is called on are those that the listed keys
    hold. *)
Lemma destroyKeys_called (ks : list string) (w : World) :
  exists called : list Desktop,
    destroyCalls (destroyKeys ks w) = destroyCalls w ++ called
    /\ forall x, In x called <->
         exists k, In k ks /\ Map_get k (desktops (this w)) = Some x.
Proof.
  revert w. induction ks as [|k ks IH]; intros w; simpl.
  - exists []. split; [now rewrite app_nil_r|].
    intros x. split; [intros [] | intros (k & [] & _)].
  - destruct (IH (destroyKey k w)) as (called & Hc & Hin).
    unfold destroyKeys in *. rewrite Hc.
    assert (Hrest : forall x, In x called <->
              exists k0, In k0 ks /\ k0 <> k /\ Map_get k0 (desktops (this w)) = Some x).
    { intros x. rewrite Hin. split.
      - intros (k0 & Hk0 & Hg). rewrite destroyKey_desktops, Map_get_delete in Hg.
        destruct (String.eqb_spec k k0) as [->|Hne]; [discriminate|].
        exists k0. repeat split; [assumption | congruence | assumption].
      - intros (k0 & Hk0 & Hne & Hg). exists k0. split; [assumption|].
        rewrite destroyKey_desktops, Map_get_delete.
        destruct (String.eqb_spec k k0) as [->|_]; [congruence | assumption]. }
    unfold destroyKey. destruct (Map_get k (desktops (this w))) as [x0|] eqn:E; simpl.
    + exists (x0 :: called). split; [now rewrite <- app_assoc|].
      intros x. simpl. rewrite Hrest. split.
      * intros [<-|(k0 & Hk0 & _ & Hg)]; [exists k; auto | exists k0; auto].
      * intros (k0 & [<-|Hk0] & Hg); [left; congruence|].
        destruct (String.eqb_spec k0 k) as [->|Hne]; [left; congruence|].
        right. exists k0. auto.
    + exists called. split; [reflexivity|].
      intros x. rewrite Hrest. split.
      * intros (k0 & Hk0 & _ & Hg). exists k0. auto.
      * intros (k0 & [<-|Hk0] & Hg); [congruence|].
        exists k0. repeat split; [assumption | congruence | assumption].
Qed.


Lemma fold_destroy {Y : Type} (body : Y -> M unit) (key : Y -> string) :
  (forall y w, exec (body y) w = destroyKey (key y) w) ->
  forall (ys : list Y) (w : World),
    fold_left (fun w y => exec (body y) w) ys w = destroyKeys (map key ys) w.
Proof.
  intros Hbody ys. induction ys as [|y ys IH]; intros w; simpl; [reflexivity|].
  rewrite IH, Hbody. reflexivity.
Qed.

(** Two nested loops around [destroyDesktop], the inner one over a field of
    [this] that destroying leaves alone. *)
Lemma exec_nested_destroy {X Y : Type} (field : DesktopManager -> list Y)
    (body : X -> Y -> M unit) (key : X -> Y -> string) :
  (forall x y w, exec (body x y) w = destroyKey (key x y) w) ->
  (forall k w, field (this (destroyKey k w)) = field (this w)) ->
  forall (xs : list X) (w : World),
    exec (for_of xs (fun x => self <- read_this ;; for_of (field self) (fun y => body x y))) w
    = destroyKeys (flat_map (fun x => map (key x) (field (this w))) xs) w.
Proof.
  intros Hbody Hfield xs w. rewrite exec_for_of.
  assert (Hks : forall ks w0, field (this (destroyKeys ks w0)) = field (this w0)).
  { induction ks as [|k ks IH]; intros w0; simpl; [reflexivity|].
    unfold destroyKeys in *. simpl. now rewrite IH, Hfield. }
  generalize (eq_refl (field (this w))).
  generalize (field (this w)) at 1 3 as ys.
  intros ys. revert w. induction xs as [|x xs IH]; intros w Hys; simpl; [reflexivity|].
  assert (E : exec (self <- read_this;; for_of (field self) (fun y => body x y)) w
              = destroyKeys (map (key x) ys) w).
  { unfold exec at 1, bind, read_this; simpl. fold (exec (for_of (field (this w)) (fun y => body x y)) w).
    rewrite exec_for_of, <- Hys. apply fold_destroy. intros y w0. apply Hbody. }
  rewrite E, destroyKeys_app. apply IH. now rewrite Hks.
Qed.

(** ** The reconciliation passes, in closed form *)

(** The keys [removeActivity], [removeKwinDesktop] and [removeScreen] go
    through: one fixed component and the cached sets of the other two. *)
Definition activityKeys (self : DesktopManager) (a : string) : list string :=
  flat_map (fun d => map (fun s => getDesktopKey a d s) (kwinScreens self)) (kwinDesktops self).

Definition kwinDesktopKeys (self : DesktopManager) (d : KwinDesktop) : list string :=
  flat_map (fun a => map (fun s => getDesktopKey a d s) (kwinScreens self)) (kwinActivities self).

Definition screenKeys (self : DesktopManager) (s : Output) : list string :=
  flat_map (fun a => map (fun d => getDesktopKey a d s) (kwinDesktops self)) (kwinActivities self).

(** The keys a pass goes through: those of the cached values that the host
    no longer has. *)
Definition staleActivityKeys (ws : Workspace.t) (self : DesktopManager) : list string :=
  flat_map (fun a =>
      if negb (Set_has (new_Set (Workspace.activities ws)) a) then activityKeys self a else [])
    (kwinActivities self).

Definition staleDesktopKeys (ws : Workspace.t) (self : DesktopManager) : list string :=
  flat_map (fun d =>
      if negb (Set_has (new_Set (Workspace.desktops ws)) d) then kwinDesktopKeys self d else [])
    (kwinDesktops self).

Definition staleScreenKeys (ws : Workspace.t) (self : DesktopManager) : list string :=
  flat_map (fun s =>
      if negb (Set_has (new_Set (Workspace.screens ws)) s) then screenKeys self s else [])
    (kwinScreens self).

Lemma exec_removeActivity (a : string) (w : World) :
  exec (removeActivity a) w = destroyKeys (activityKeys (this w) a) w.
Proof.
  unfold removeActivity, activityKeys.
  apply (exec_nested_destroy kwinScreens
           (fun d s => destroyDesktop a d s) (fun d s => getDesktopKey a d s)).
  - intros; apply exec_destroyDesktop.
  - intros; apply destroyKey_frame.
Qed.

Lemma exec_removeKwinDesktop (d : KwinDesktop) (w : World) :
  exec (removeKwinDesktop d) w = destroyKeys (kwinDesktopKeys (this w) d) w.
Proof.
  unfold removeKwinDesktop, kwinDesktopKeys.
  apply (exec_nested_destroy kwinScreens
           (fun a s => destroyDesktop a d s) (fun a s => getDesktopKey a d s)).
  - intros; apply exec_destroyDesktop.
  - intros; apply destroyKey_frame.
Qed.

Lemma exec_removeScreen (s : Output) (w : World) :
  exec (removeScreen s) w = destroyKeys (screenKeys (this w) s) w.
Proof.
  unfold removeScreen, screenKeys.
  apply (exec_nested_destroy kwinDesktops
           (fun a d => destroyDesktop a d s) (fun a d => getDesktopKey a d s)).
  - intros; apply exec_destroyDesktop.
  - intros; apply destroyKey_frame.
Qed.

(** The loop of a pass: the stale values are removed one after the other;
    the keys each removal goes through do not depend on the removals before
    it. *)
Lemma fold_stale {X : Type} (stale : X -> bool) (remove : X -> M unit)
    (keys : DesktopManager -> X -> list string) :
  (forall x w, exec (remove x) w = destroyKeys (keys (this w) x) w) ->
  (forall x ks w, keys (this (destroyKeys ks w)) x = keys (this w) x) ->
  forall (xs : list X) (w : World),
    exec (for_of xs (fun x => if stale x then remove x else ret tt)) w
    = destroyKeys (flat_map (fun x => if stale x then keys (this w) x else []) xs) w.
Proof.
  intros Hrem Hkeys xs w. rewrite exec_for_of.
  assert (G : forall w0, (forall x, keys (this w0) x = keys (this w) x) ->
            fold_left (fun w1 x => exec (if stale x then remove x else ret tt) w1) xs w0
            = destroyKeys (flat_map (fun x => if stale x then keys (this w) x else []) xs) w0).
  { induction xs as [|x xs IH]; intros w0 Hw0; simpl; [reflexivity|].
    rewrite destroyKeys_app.
    destruct (stale x).
    - rewrite Hrem, Hw0. apply IH. intros y. now rewrite Hkeys.
    - apply IH. exact Hw0. }
  apply G. reflexivity.
Qed.

Lemma activityKeys_frame (a : string) (ks : list string) (w : World) :
  activityKeys (this (destroyKeys ks w)) a = activityKeys (this w) a.
Proof.
  unfold activityKeys. destruct (destroyKeys_frame ks w) as (_ & -> & -> & _). reflexivity.
Qed.

Lemma kwinDesktopKeys_frame (d : KwinDesktop) (ks : list string) (w : World) :
  kwinDesktopKeys (this (destroyKeys ks w)) d = kwinDesktopKeys (this w) d.
Proof.
  unfold kwinDesktopKeys. destruct (destroyKeys_frame ks w) as (-> & _ & -> & _). reflexivity.
Qed.

Lemma screenKeys_frame (s : Output) (ks : list string) (w : World) :
  screenKeys (this (destroyKeys ks w)) s = screenKeys (this w) s.
Proof.
  unfold screenKeys. destruct (destroyKeys_frame ks w) as (-> & -> & _ & _). reflexivity.
Qed.

(** A pass destroys the entries of its stale keys and then replaces the
    cached set by the host's. *)
Lemma exec_updateActivities (ws : Workspace.t) (w : World) :
  exec (updateActivities ws) w =
  let w' := destroyKeys (staleActivityKeys ws (this w)) w in
  mkWorld
    (mkDesktopManager (desktops (this w')) (new_Set (Workspace.activities ws))
       (kwinDesktops (this w)) (kwinScreens (this w)))
    (allocated w) (destroyCalls w').
Proof.
  unfold updateActivities, staleActivityKeys.
  pose proof (fold_stale (fun a => negb (Set_has (new_Set (Workspace.activities ws)) a))
                removeActivity activityKeys exec_removeActivity activityKeys_frame
                (kwinActivities (this w)) w) as E.
  unfold exec in *. unfold bind at 1. unfold bind at 1. simpl.
  rewrite E. simpl.
  destruct (destroyKeys_frame
    (flat_map (fun a => if negb (Set_has (new_Set (Workspace.activities ws)) a)
                        then activityKeys (this w) a else []) (kwinActivities (this w))) w)
    as (_ & -> & -> & ->).
  reflexivity.
Qed.

Lemma exec_updateDesktops (ws : Workspace.t) (w : World) :
  exec (updateDesktops ws) w =
  let w' := destroyKeys (staleDesktopKeys ws (this w)) w in
  mkWorld
    (mkDesktopManager (desktops (this w')) (kwinActivities (this w))
       (new_Set (Workspace.desktops ws)) (kwinScreens (this w)))
    (allocated w) (destroyCalls w').
Proof.
  unfold updateDesktops, staleDesktopKeys.
  pose proof (fold_stale (fun d => negb (Set_has (new_Set (Workspace.desktops ws)) d))
                removeKwinDesktop kwinDesktopKeys exec_removeKwinDesktop kwinDesktopKeys_frame
                (kwinDesktops (this w)) w) as E.
  unfold exec in *. unfold bind at 1. unfold bind at 1. simpl.
  rewrite E. simpl.
  destruct (destroyKeys_frame
    (flat_map (fun d => if negb (Set_has (new_Set (Workspace.desktops ws)) d)
                        then kwinDesktopKeys (this w) d else []) (kwinDesktops (this w))) w)
    as (-> & _ & -> & ->).
  reflexivity.
Qed.

Lemma exec_updateScreens (ws : Workspace.t) (w : World) :
  exec (updateScreens ws) w =
  let w' := destroyKeys (staleScreenKeys ws (this w)) w in
  mkWorld
    (mkDesktopManager (desktops (this w')) (kwinActivities (this w))
       (kwinDesktops (this w)) (new_Set (Workspace.screens ws)))
    (allocated w) (destroyCalls w').
Proof.
  unfold updateScreens, staleScreenKeys.
  pose proof (fold_stale (fun s => negb (Set_has (new_Set (Workspace.screens ws)) s))
                removeScreen screenKeys exec_removeScreen screenKeys_frame
                (kwinScreens (this w)) w) as E.
  unfold exec in *. unfold bind at 1. unfold bind at 1. simpl.
  rewrite E. simpl.
  destruct (destroyKeys_frame
    (flat_map (fun s => if negb (Set_has (new_Set (Workspace.screens ws)) s)
                        then screenKeys (this w) s else []) (kwinScreens (this w))) w)
    as (-> & -> & _ & ->).
  reflexivity.
Qed.

(** ** The three passes as one, by dimension *)

Inductive Dimension : Type := Activities | Desktops | Screens.

(** [updateActivities], [updateDesktops] or [updateScreens]. *)
Definition update (dim : Dimension) (ws : Workspace.t) : M unit :=
  match dim with
  | Activities => updateActivities ws
  | Desktops => updateDesktops ws
  | Screens => updateScreens ws
  end.

Definition staleKeys (dim : Dimension) (ws : Workspace.t) (self : DesktopManager) : list string :=
  match dim with
  | Activities => staleActivityKeys ws self
  | Desktops => staleDesktopKeys ws self
  | Screens => staleScreenKeys ws self
  end.

(** The component of the triple in the dimension is not in the host's set. *)
Definition gone (ws : Workspace.t) (dim : Dimension)
    (a : string) (d : KwinDesktop) (s : Output) : Prop :=
  match dim with
  | Activities => ~ In a (Workspace.activities ws)
  | Desktops => ~ In d (Workspace.desktops ws)
  | Screens => ~ In s (Workspace.screens ws)
  end.

(** [k] is the key of a triple of cached values whose component in the
    dimension the host no longer has. *)
Definition stale_key (ws : Workspace.t) (self : DesktopManager) (dim : Dimension)
    (k : string) : Prop :=
  exists a d s,
    In a (kwinActivities self) /\ In d (kwinDesktops self) /\ In s (kwinScreens self)
    /\ gone ws dim a d s /\ k = getDesktopKey a d s.

Lemma staleKeys_In (dim : Dimension) (ws : Workspace.t) (self : DesktopManager) (k : string) :
  In k (staleKeys dim ws self) <-> stale_key ws self dim k.
Proof.
  unfold stale_key. destruct dim; simpl;
    [unfold staleActivityKeys, activityKeys
    |unfold staleDesktopKeys, kwinDesktopKeys
    |unfold staleScreenKeys, screenKeys];
    rewrite in_flat_map; split.
  - intros (a & Ha & Hk).
    destruct (Set_has (new_Set (Workspace.activities ws)) a) eqn:E; simpl in Hk; [contradiction|].
    apply Set_has_not_In in E. rewrite new_Set_In in E.
    apply in_flat_map in Hk as (d & Hd & Hk). apply in_map_iff in Hk as (s & <- & Hs).
    exists a, d, s. auto.
  - intros (a & d & s & Ha & Hd & Hs & Hg & ->). exists a. split; [assumption|].
    rewrite <- (new_Set_In (Workspace.activities ws)) in Hg. apply Set_has_not_In in Hg.
    rewrite Hg; simpl. apply in_flat_map. exists d. split; [assumption|].
    apply in_map_iff. exists s. auto.
  - intros (d & Hd & Hk).
    destruct (Set_has (new_Set (Workspace.desktops ws)) d) eqn:E; simpl in Hk; [contradiction|].
    apply Set_has_not_In in E. rewrite new_Set_In in E.
    apply in_flat_map in Hk as (a & Ha & Hk). apply in_map_iff in Hk as (s & <- & Hs).
    exists a, d, s. auto.
  - intros (a & d & s & Ha & Hd & Hs & Hg & ->). exists d. split; [assumption|].
    rewrite <- (new_Set_In (Workspace.desktops ws)) in Hg. apply Set_has_not_In in Hg.
    rewrite Hg; simpl. apply in_flat_map. exists a. split; [assumption|].
    apply in_map_iff. exists s. auto.
  - intros (s & Hs & Hk).
    destruct (Set_has (new_Set (Workspace.screens ws)) s) eqn:E; simpl in Hk; [contradiction|].
    apply Set_has_not_In in E. rewrite new_Set_In in E.
    apply in_flat_map in Hk as (a & Ha & Hk). apply in_map_iff in Hk as (d & <- & Hd).
    exists a, d, s. auto.
  - intros (a & d & s & Ha & Hd & Hs & Hg & ->). exists s. split; [assumption|].
    rewrite <- (new_Set_In (Workspace.screens ws)) in Hg. apply Set_has_not_In in Hg.
    rewrite Hg; simpl. apply in_flat_map. exists a. split; [assumption|].
    apply in_map_iff. exists d. auto.
Qed.

(** The cached sets after a pass: the one of the dimension is the host's. *)
Definition refreshed (dim : Dimension) (ws : Workspace.t) (self : DesktopManager)
    (entries : JSMap) : DesktopManager :=
  match dim with
  | Activities =>
      mkDesktopManager entries (new_Set (Workspace.activities ws))
        (kwinDesktops self) (kwinScreens self)
  | Desktops =>
      mkDesktopManager entries (kwinActivities self)
        (new_Set (Workspace.desktops ws)) (kwinScreens self)
  | Screens =>
      mkDesktopManager entries (kwinActivities self) (kwinDesktops self)
        (new_Set (Workspace.screens ws))
  end.

Lemma exec_update (dim : Dimension) (ws : Workspace.t) (w : World) :
  exec (update dim ws) w =
  mkWorld
    (refreshed dim ws (this w)
       (filter (fun e => negb (key_in (staleKeys dim ws (this w)) (fst e))) (desktops (this w))))
    (allocated w)
    (destroyCalls (destroyKeys (staleKeys dim ws (this w)) w)).
Proof.
  destruct dim; simpl;
    [rewrite exec_updateActivities | rewrite exec_updateDesktops | rewrite exec_updateScreens];
    cbv zeta; rewrite destroyKeys_desktops; reflexivity.
Qed.

(** ** C1: what a pass removes *)

Module C1Example.
Import Ex.
(** The host has one activity and, at first, neither desktop nor screen. *)
Definition ws_start : Workspace.t := Workspace.mk ["A"%string] [] [] "A"%string D1 S1.
(** The host has lost the activity and gained a desktop and a screen. *)
Definition ws_later : Workspace.t := Workspace.mk [] [D1] [S1] "A"%string D1 S1.
(** The triple (A, D1, S1) is looked up before any pass has run. *)
Definition w_looked_up : World :=
  exec (getDesktop all "A" D1 S1) (mkWorld (constructor ws_start) 0 []).
End C1Example.

(** C1, as stated, fails: the activity "A" is cached and gone from the host,
    yet the entry of (A, D1, S1) is still there after [updateActivities],
    because D1 and S1 are not in the cached sets the pass goes through. *)
Lemma updateActivities_leaves_uncached_coordinate :
  ~ (forall (ws : Workspace.t) (w : World) (a : string) (d : KwinDesktop) (s : Output),
        In a (kwinActivities (this w)) -> ~ In a (Workspace.activities ws) ->
        Map_get (getDesktopKey a d s) (desktops (this (exec (updateActivities ws) w))) = None).
Proof.
  intros H.
  specialize (H C1Example.ws_later C1Example.w_looked_up "A"%string Ex.D1 Ex.S1).
  assert (Hin : In "A"%string (kwinActivities (this C1Example.w_looked_up))) by (now left).
  assert (Hout : ~ In "A"%string (Workspace.activities C1Example.ws_later)) by (intros []).
  specialize (H Hin Hout). vm_compute in H. discriminate H.
Qed.

(** C1, amended: call a key stale for a pass when it is the key of a triple
    of values of the three cached sets whose component in the dimension of
    the pass is gone from the host.  After the pass no stale key holds an
    entry; a key that is not stale holds what it held before; and the pass
    calls [destroy] on the desktops that the stale keys held, on each of
    them and on no other. *)
Theorem update_removes_stale_cached_coordinates
    (dim : Dimension) (ws : Workspace.t) (w : World) :
  let w' := exec (update dim ws) w in
  (forall k, stale_key ws (this w) dim k -> Map_get k (desktops (this w')) = None)
  /\ (forall k, ~ stale_key ws (this w) dim k ->
        Map_get k (desktops (this w')) = Map_get k (desktops (this w)))
  /\ (exists called,
        destroyCalls w' = destroyCalls w ++ called
        /\ forall x, In x called <->
             exists k, stale_key ws (this w) dim k
                       /\ Map_get k (desktops (this w)) = Some x).
Proof.
  intros w'. subst w'. rewrite exec_update.
  assert (Hget : forall k,
            Map_get k (desktops (refreshed dim ws (this w)
              (filter (fun e => negb (key_in (staleKeys dim ws (this w)) (fst e)))
                 (desktops (this w)))))
            = if key_in (staleKeys dim ws (this w)) k then None
              else Map_get k (desktops (this w))).
  { intros k.
    replace (desktops (refreshed dim ws (this w)
              (filter (fun e => negb (key_in (staleKeys dim ws (this w)) (fst e)))
                 (desktops (this w)))))
      with (filter (fun e => negb (key_in (staleKeys dim ws (this w)) (fst e)))
              (desktops (this w))) by (destruct dim; reflexivity).
    rewrite (Map_get_filter (fun x => negb (key_in (staleKeys dim ws (this w)) x))).
    now destruct (key_in (staleKeys dim ws (this w)) k). }
  simpl. split; [|split].
  - intros k Hk. rewrite Hget.
    apply staleKeys_In, key_in_In in Hk. now rewrite Hk.
  - intros k Hk. rewrite Hget.
    destruct (key_in (staleKeys dim ws (this w)) k) eqn:E; [|reflexivity].
    exfalso. apply Hk. now apply staleKeys_In, key_in_In.
  - destruct (destroyKeys_called (staleKeys dim ws (this w)) w) as (called & Hc & Hin).
    exists called. split; [exact Hc|].
    intros x. rewrite Hin. split; intros (k & Hk & Hg); exists k;
      (split; [now apply staleKeys_In | assumption]).
Qed.

Lemma update_removes_stale_cached_coordinates_witness :
  let ws := Workspace.mk ["A"%string] [Ex.D1; Ex.D2] [Ex.S1] "A"%string Ex.D1 Ex.S1 in
  Map_get (getDesktopKey "B" Ex.D1 Ex.S1)
    (desktops (this (exec (update Activities ws) Ex.w2))) = None.
Proof.
  intros ws.
  apply (proj1 (update_removes_stale_cached_coordinates Activities ws Ex.w2)).
  exists "B"%string, Ex.D1, Ex.S1. repeat split.
  - vm_compute; tauto.
  - vm_compute; tauto.
  - vm_compute; tauto.
  - simpl. intros [E|[]]. discriminate E.
Defined.

(** ** C8: a pass run twice *)

Lemma flat_map_nil {A B : Type} (f : A -> list B) (xs : list A) :
  (forall x, In x xs -> f x = []) -> flat_map f xs = [].
Proof.
  induction xs as [|x xs IH]; simpl; intros Hf; [reflexivity|].
  rewrite (Hf x (or_introl eq_refl)), IH; [reflexivity|]. intros y Hy. apply Hf. now right.
Qed.

(** Once the cached set is the host's, the pass has no stale key. *)
Lemma staleKeys_refreshed (dim : Dimension) (ws : Workspace.t) (self : DesktopManager)
    (entries : JSMap) :
  staleKeys dim ws (refreshed dim ws self entries) = [].
Proof.
  destruct dim; simpl;
    [unfold staleActivityKeys | unfold staleDesktopKeys | unfold staleScreenKeys]; simpl;
    apply flat_map_nil; intros x Hx; apply Set_has_In in Hx; now rewrite Hx.
Qed.

Lemma filter_all {A : Type} (l : list A) : filter (fun _ => true) l = l.
Proof. induction l as [|x l IH]; simpl; [reflexivity | now rewrite IH]. Qed.

(** C8: with the same host sets, the second run of a pass changes nothing:
    the entries, the cached sets and the list of [destroy] calls are those
    the first run left. *)
Theorem update_twice_is_update_once (dim : Dimension) (ws : Workspace.t) (w : World) :
  exec (update dim ws) (exec (update dim ws) w) = exec (update dim ws) w.
Proof.
  rewrite (exec_update dim ws (exec (update dim ws) w)).
  rewrite (exec_update dim ws w). cbn [this allocated destroyCalls].
  rewrite staleKeys_refreshed. cbn [key_in existsb negb destroyKeys fold_left destroyCalls].
  rewrite filter_all. destruct dim; reflexivity.
Qed.

(** ** Lookup: [getDesktop] *)

Section LookupFacts.
Variable shouldWorkOnDesktop : KwinDesktop -> bool.

(** The state after a lookup that had to create the desktop. *)
Definition created (a : string) (d : KwinDesktop) (s : Output) (w : World) : World :=
  mkWorld
    (mkDesktopManager
       (Map_set (getDesktopKey a d s) (mkDesktop (allocated w) d s) (desktops (this w)))
       (kwinActivities (this w)) (kwinDesktops (this w)) (kwinScreens (this w)))
    (S (allocated w)) (destroyCalls w).

Lemma getDesktop_filtered (a : string) (d : KwinDesktop) (s : Output) (w : World) :
  shouldWorkOnDesktop d = false -> getDesktop shouldWorkOnDesktop a d s w = (None, w).
Proof. intros Hf. unfold getDesktop. now rewrite Hf. Qed.

Lemma getDesktop_hit (a : string) (d : KwinDesktop) (s : Output) (w : World) (x : Desktop) :
  shouldWorkOnDesktop d = true ->
  Map_get (getDesktopKey a d s) (desktops (this w)) = Some x ->
  getDesktop shouldWorkOnDesktop a d s w = (Some x, w).
Proof.
  intros Hf Hg. unfold getDesktop. rewrite Hf; simpl.
  unfold bind, desktops_get, read_this, ret; simpl. now rewrite Hg.
Qed.

Lemma getDesktop_miss (a : string) (d : KwinDesktop) (s : Output) (w : World) :
  shouldWorkOnDesktop d = true ->
  Map_get (getDesktopKey a d s) (desktops (this w)) = None ->
  getDesktop shouldWorkOnDesktop a d s w = (Some (mkDesktop (allocated w) d s), created a d s w).
Proof.
  intros Hf Hg. unfold getDesktop. rewrite Hf; simpl.
  unfold bind, desktops_get, read_this, ret; simpl. now rewrite Hg.
Qed.

(** A lookup leaves what the map holds where it is. *)
Lemma getDesktop_keeps (a : string) (d : KwinDesktop) (s : Output) (w : World)
    (k : string) (x : Desktop) :
  Map_get k (desktops (this w)) = Some x ->
  Map_get k (desktops (this (exec (getDesktop shouldWorkOnDesktop a d s) w))) = Some x.
Proof.
  intros Hk. unfold exec.
  destruct (shouldWorkOnDesktop d) eqn:Hf; [|now rewrite getDesktop_filtered].
  destruct (Map_get (getDesktopKey a d s) (desktops (this w))) as [y|] eqn:Hg.
  - now rewrite (getDesktop_hit _ _ _ _ _ Hf Hg).
  - rewrite (getDesktop_miss _ _ _ _ Hf Hg). simpl. rewrite Map_get_set.
    destruct (String.eqb_spec k (getDesktopKey a d s)) as [->|]; [congruence | assumption].
Qed.

(** After a lookup that passes the filter, the map holds what was returned. *)
Lemma getDesktop_stored (a : string) (d : KwinDesktop) (s : Output) (w : World) :
  shouldWorkOnDesktop d = true ->
  exists x, result (getDesktop shouldWorkOnDesktop a d s) w = Some x
            /\ Map_get (getDesktopKey a d s) (desktops (this (exec (getDesktop shouldWorkOnDesktop a d s) w))) = Some x.
Proof.
  intros Hf. unfold result, exec.
  destruct (Map_get (getDesktopKey a d s) (desktops (this w))) as [y|] eqn:Hg.
  - rewrite (getDesktop_hit _ _ _ _ _ Hf Hg). simpl. eauto.
  - rewrite (getDesktop_miss _ _ _ _ Hf Hg). simpl. eexists. split; [reflexivity|].
    now rewrite Map_get_set, String.eqb_refl.
Qed.

(** A run of lookups of any triples, results dropped. *)
Definition lookups (triples : list (string * KwinDesktop * Output)) : M unit :=
  for_of triples (fun t => getDesktop shouldWorkOnDesktop (fst (fst t)) (snd (fst t)) (snd t) ;; ret tt).

Lemma lookups_keep (triples : list (string * KwinDesktop * Output)) (w : World)
    (k : string) (x : Desktop) :
  Map_get k (desktops (this w)) = Some x ->
  Map_get k (desktops (this (exec (lookups triples) w))) = Some x.
Proof.
  unfold lookups. rewrite exec_for_of. revert w.
  induction triples as [|[[a d] s] ts IH]; intros w Hk; simpl; [assumption|].
  apply IH. unfold exec at 1, bind, ret; simpl.
  now apply getDesktop_keeps.
Qed.

(** C6: a desktop that the filter rejects is not looked up: the result is
    [undefined], the state is the one before the call, and [getAllDesktops]
    yields what it yielded before. *)
Theorem getDesktop_rejected_desktop (a : string) (d : KwinDesktop) (s : Output) (w : World) :
  shouldWorkOnDesktop d = false ->
  result (getDesktop shouldWorkOnDesktop a d s) w = None
  /\ exec (getDesktop shouldWorkOnDesktop a d s) w = w
  /\ result getAllDesktops (exec (getDesktop shouldWorkOnDesktop a d s) w) = result getAllDesktops w.
Proof.
  intros Hf. unfold result, exec. rewrite (getDesktop_filtered _ _ _ _ Hf). simpl. auto.
Qed.

(** C4: after a first lookup of a triple, and after any further lookups of
    any triples, a lookup of the same triple returns what the first one
    returned and leaves the state as it is.  When the filter accepts the
    desktop the first lookup returns a desktop, and the map holds it under
    the key of the triple; a lookup adds at most one entry.  The first
    lookup returns the desktop that the key holds, and changes nothing, or,
    where the key holds none, constructs a [Desktop] for the desktop and the
    screen of the triple, a new object, and adds it to the map under the key
    as the last entry. *)
Theorem getDesktop_same_instance (a : string) (d : KwinDesktop) (s : Output)
    (others : list (string * KwinDesktop * Output)) (w : World) :
  let first := result (getDesktop shouldWorkOnDesktop a d s) w in
  let w1 := exec (getDesktop shouldWorkOnDesktop a d s) w in
  let w2 := exec (lookups others) w1 in
  getDesktop shouldWorkOnDesktop a d s w2 = (first, w2)
  /\ (if shouldWorkOnDesktop d
      then exists x, first = Some x
                     /\ Map_get (getDesktopKey a d s) (desktops (this w2)) = Some x
      else first = None)
  /\ List.length (desktops (this w1)) <= S (List.length (desktops (this w)))
  /\ (if shouldWorkOnDesktop d
      then match Map_get (getDesktopKey a d s) (desktops (this w)) with
           | Some x => first = Some x /\ w1 = w
           | None =>
               first = Some (mkDesktop (allocated w) d s)
               /\ w1 = mkWorld
                         (mkDesktopManager
                            (desktops (this w)
                             ++ [(getDesktopKey a d s, mkDesktop (allocated w) d s)])
                            (kwinActivities (this w)) (kwinDesktops (this w))
                            (kwinScreens (this w)))
                         (S (allocated w)) (destroyCalls w)
           end
      else w1 = w).
Proof.
  intros first w1 w2. subst first w1 w2.
  destruct (shouldWorkOnDesktop d) eqn:Hf.
  - destruct (getDesktop_stored a d s w Hf) as (x & Hr & Hs).
    pose proof (lookups_keep others _ _ _ Hs) as Hk.
    split; [|split; [|split]].
    + rewrite Hr. now apply getDesktop_hit.
    + exists x. auto.
    + unfold exec.
      destruct (Map_get (getDesktopKey a d s) (desktops (this w))) as [y|] eqn:Hg.
      * rewrite (getDesktop_hit _ _ _ _ _ Hf Hg). simpl. lia.
      * rewrite (getDesktop_miss _ _ _ _ Hf Hg). simpl.
        rewrite (Map_set_absent _ _ _ Hg), length_app. simpl. lia.
    + unfold result, exec.
      destruct (Map_get (getDesktopKey a d s) (desktops (this w))) as [y|] eqn:Hg.
      * rewrite (getDesktop_hit _ _ _ _ _ Hf Hg). simpl. auto.
      * rewrite (getDesktop_miss _ _ _ _ Hf Hg). unfold created. simpl.
        now rewrite (Map_set_absent _ _ _ Hg).
  - pose proof (getDesktop_filtered a d s w Hf) as E.
    replace (exec (getDesktop shouldWorkOnDesktop a d s) w) with w by (unfold exec; now rewrite E).
    replace (result (getDesktop shouldWorkOnDesktop a d s) w) with (@None Desktop)
      by (unfold result; now rewrite E).
    repeat split; [now apply getDesktop_filtered | lia].
Qed.
End LookupFacts.

Lemma getDesktop_rejected_desktop_witness :
  let none (_ : KwinDesktop) := false in
  result (getDesktop none "A" Ex.D1 Ex.S1) Ex.w2 = None
  /\ exec (getDesktop none "A" Ex.D1 Ex.S1) Ex.w2 = Ex.w2
  /\ result getAllDesktops (exec (getDesktop none "A" Ex.D1 Ex.S1) Ex.w2)
     = result getAllDesktops Ex.w2.
Proof.
  intros none.
  apply (@getDesktop_rejected_desktop none "A" Ex.D1 Ex.S1 Ex.w2). reflexivity.
Defined.

(** ** The generators *)

(** What the innermost loop of the queries yields for one activity and one
    desktop: the entries of the cached screens, where there is one. *)
Definition entries_at (w : World) (a : string) (d : KwinDesktop) : list Desktop :=
  flat_map (fun s =>
      match Map_get (getDesktopKey a d s) (desktops (this w)) with
      | Some x => [x]
      | None => []
      end)
    (kwinScreens (this w)).

(** The body of the innermost loop. *)
Definition yield_entry (a : string) (d : KwinDesktop) (s : Output) : M (list Desktop) :=
  desktop <- desktops_get (getDesktopKey a d s) ;;
  match desktop with
  | Some desktop => ret [desktop]
  | None => ret []
  end.

Lemma yield_entry_run (a : string) (d : KwinDesktop) (s : Output) (w : World) :
  yield_entry a d s w
  = (match Map_get (getDesktopKey a d s) (desktops (this w)) with
     | Some x => [x]
     | None => []
     end, w).
Proof.
  unfold yield_entry, bind, desktops_get, read_this, ret; simpl.
  destruct (Map_get (getDesktopKey a d s) (desktops (this w))); reflexivity.
Qed.

Lemma screens_loop_run (a : string) (d : KwinDesktop) (w : World) :
  (self <- read_this ;; for_yield (kwinScreens self) (fun s => yield_entry a d s)) w
  = (entries_at w a d, w).
Proof.
  unfold bind at 1, read_this; simpl.
  assert (F : forall s, exec (yield_entry a d s) w = w)
    by (intros s; unfold exec; now rewrite yield_entry_run).
  rewrite (surjective_pairing (for_yield (kwinScreens (this w)) (fun s => yield_entry a d s) w)).
  f_equal.
  - change (result (for_yield (kwinScreens (this w)) (fun s => yield_entry a d s)) w
            = entries_at w a d).
    rewrite (result_for_yield_frame _ _ _ F). unfold entries_at.
    apply flat_map_ext. intros s. unfold result. now rewrite yield_entry_run.
  - apply (exec_for_yield_frame _ _ _ F).
Qed.

Lemma desktops_loop_run (a : string) (ds : list KwinDesktop) (w : World) :
  for_yield ds (fun d =>
      self <- read_this ;; for_yield (kwinScreens self) (fun s => yield_entry a d s)) w
  = (flat_map (entries_at w a) ds, w).
Proof.
  set (body := fun d : KwinDesktop =>
         self <- read_this ;; for_yield (kwinScreens self) (fun s => yield_entry a d s)).
  assert (F : forall d, exec (body d) w = w)
    by (intros d; unfold exec, body; now rewrite screens_loop_run).
  rewrite (surjective_pairing (for_yield ds body w)). f_equal.
  - change (result (for_yield ds body) w = flat_map (entries_at w a) ds).
    rewrite (result_for_yield_frame _ _ _ F).
    apply flat_map_ext. intros d. unfold result, body. now rewrite screens_loop_run.
  - apply (exec_for_yield_frame _ _ _ F).
Qed.

(** What the two outer loops of [getDesktops] yield: the first matched
    activity gets one run over the source of desktops, the activities after
    it get what that run has left of the source. *)
Fixpoint matched_entries (w : World) (matchedActivities : list string)
    (matchedDesktops : Iterable KwinDesktop) : list Desktop :=
  match matchedActivities with
  | [] => []
  | a :: rest =>
      flat_map (entries_at w a) (fst (iterate matchedDesktops))
      ++ matched_entries w rest (snd (iterate matchedDesktops))
  end.

Lemma getDesktops_loop_run (acts : list string) (src : Iterable KwinDesktop) (w : World) :
  getDesktops_loop acts src w = (matched_entries w acts src, w).
Proof.
  revert src. induction acts as [|a rest IH]; intros src; simpl; [reflexivity|].
  destruct (iterate src) as [visited src'] eqn:E. simpl.
  unfold bind at 1.
  change (fun matchedDesktop : KwinDesktop =>
            self <- read_this;;
            for_yield (kwinScreens self)
              (fun screen : Output =>
               desktop <- desktops_get (getDesktopKey a matchedDesktop screen);;
               match desktop with
               | Some desktop0 => ret [desktop0]
               | None => ret []
               end))
    with (fun d : KwinDesktop =>
            self <- read_this;; for_yield (kwinScreens self) (fun s => yield_entry a d s)).
  rewrite desktops_loop_run. simpl. unfold bind at 1. rewrite IH. reflexivity.
Qed.

Lemma getDesktops_run (acts : list string) (ds : list KwinDesktop) (w : World) :
  getDesktops acts ds w
  = (matched_entries w
       (if 0 <? List.length acts then acts else kwinActivities (this w))
       (if 0 <? List.length ds then Array ds else Set_keys (kwinDesktops (this w))),
     w).
Proof.
  unfold getDesktops, bind at 1, read_this; simpl. rewrite getDesktops_loop_run.
  destruct (0 <? List.length acts); reflexivity.
Qed.

Lemma getDesktopsOnCurrentDesktopAndActivity_run (ws : Workspace.t) (w : World) :
  getDesktopsOnCurrentDesktopAndActivity ws w
  = (entries_at w (Workspace.currentActivity ws) (Workspace.currentDesktop ws), w).
Proof.
  unfold getDesktopsOnCurrentDesktopAndActivity.
  exact (screens_loop_run (Workspace.currentActivity ws) (Workspace.currentDesktop ws) w).
Qed.

Lemma getAllDesktops_run (w : World) :
  getAllDesktops w = (Map_values (desktops (this w)), w).
Proof.
  unfold getAllDesktops, bind at 1, read_this; simpl.
  induction (Map_values (desktops (this w))) as [|x xs IH]; simpl; [reflexivity|].
  unfold bind, ret in *; simpl. now rewrite IH.
Qed.

Lemma entries_at_stored (w : World) (a : string) (d : KwinDesktop) (x : Desktop) :
  In x (entries_at w a d) -> In x (Map_values (desktops (this w))).
Proof.
  unfold entries_at. rewrite in_flat_map. intros (s & _ & Hx).
  destruct (Map_get (getDesktopKey a d s) (desktops (this w))) as [y|] eqn:E; [|contradiction].
  destruct Hx as [<-|[]]. apply Map_get_In in E.
  unfold Map_values. change y with (snd (getDesktopKey a d s, y)). now apply in_map.
Qed.

Lemma matched_entries_stored (w : World) (acts : list string) (src : Iterable KwinDesktop)
    (x : Desktop) :
  In x (matched_entries w acts src) -> In x (Map_values (desktops (this w))).
Proof.
  revert src. induction acts as [|a rest IH]; intros src; simpl; [tauto|].
  rewrite in_app_iff, in_flat_map. intros [(d & _ & Hx)|Hx].
  - now apply entries_at_stored in Hx.
  - now apply IH in Hx.
Qed.

(** C9: run to their end, [getDesktopsOnCurrentDesktopAndActivity] and
    [getDesktops] (and [getDesktopsForClient], which is [getDesktops]) leave
    the state as it is: no entry is added or removed, no [Desktop] is
    constructed and [destroy] is not called.  What they yield are values of
    the map. *)
Theorem queries_leave_the_state (ws : Workspace.t) (activities : list string)
    (kwinDesktops' : list KwinDesktop) (kwinClient : KwinClient.t) (w : World) :
  exec (getDesktopsOnCurrentDesktopAndActivity ws) w = w
  /\ exec (getDesktops activities kwinDesktops') w = w
  /\ exec (getDesktopsForClient kwinClient) w = w
  /\ (forall x, In x (result (getDesktopsOnCurrentDesktopAndActivity ws) w) ->
        In x (Map_values (desktops (this w))))
  /\ (forall x, In x (result (getDesktops activities kwinDesktops') w) ->
        In x (Map_values (desktops (this w)))).
Proof.
  unfold getDesktopsForClient, exec, result.
  rewrite getDesktopsOnCurrentDesktopAndActivity_run, !getDesktops_run. simpl.
  repeat split.
  - apply entries_at_stored.
  - apply matched_entries_stored.
Qed.

(** ** C10: duplicates in the arguments of [getDesktops] *)

Lemma matched_entries_Array (w : World) (acts : list string) (ds : list KwinDesktop) :
  matched_entries w acts (Array ds) = flat_map (fun a => flat_map (entries_at w a) ds) acts.
Proof.
  induction acts as [|a rest IH]; simpl; [reflexivity | now rewrite IH].
Qed.

Lemma matched_entries_exhausted (w : World) (acts : list string) :
  matched_entries w acts (Iterator []) = [].
Proof. induction acts as [|a rest IH]; simpl; [reflexivity | exact IH]. Qed.

(** With an iterator as the source of desktops only the first matched
    activity yields anything. *)
Lemma matched_entries_Iterator (w : World) (a : string) (rest : list string)
    (ds : list KwinDesktop) :
  matched_entries w (a :: rest) (Iterator ds) = flat_map (entries_at w a) ds.
Proof. simpl. now rewrite matched_entries_exhausted, app_nil_r. Qed.

Lemma count_occ_flat_map_ge {A B : Type} (decA : forall x y : A, {x = y} + {x <> y})
    (decB : forall x y : B, {x = y} + {x <> y}) (f : A -> list B) (l : list A)
    (a : A) (x : B) (c : nat) :
  c <= count_occ decB (f a) x ->
  count_occ decA l a * c <= count_occ decB (flat_map f l) x.
Proof.
  intros Hc. induction l as [|y l IH]; simpl; [lia|].
  rewrite count_occ_app. destruct (decA y a) as [->|Hy]; simpl; lia.
Qed.

Definition KwinDesktop_eq_dec (x y : KwinDesktop) : {x = y} + {x <> y}.
Proof. destruct (KwinDesktop_same_spec x y); [left|right]; assumption. Defined.

(** Where the argument of desktops is an array with elements, an entry of a
    cached screen is yielded at least once for every pair of an occurrence
    of its activity among the matched activities and an occurrence of its
    desktop in the array. *)
Lemma getDesktops_arrays_repeat (acts : list string) (ds : list KwinDesktop) (w : World)
    (a : string) (d : KwinDesktop) (s : Output) (x : Desktop) :
  In s (kwinScreens (this w)) ->
  Map_get (getDesktopKey a d s) (desktops (this w)) = Some x ->
  ds <> [] ->
  count_occ string_dec (if 0 <? List.length acts then acts else kwinActivities (this w)) a
  * count_occ KwinDesktop_eq_dec ds d
  <= count_occ Desktop_eq_dec (result (getDesktops acts ds) w) x.
Proof.
  intros Hs Hg Hds. unfold result. rewrite getDesktops_run. simpl.
  destruct ds as [|d0 ds0]; [congruence|]. cbn [List.length Nat.ltb Nat.leb].
  rewrite matched_entries_Array.
  apply count_occ_flat_map_ge.
  rewrite <- (Nat.mul_1_r (count_occ KwinDesktop_eq_dec (d0 :: ds0) d)).
  apply count_occ_flat_map_ge.
  apply count_occ_In. unfold entries_at. apply in_flat_map. exists s.
  split; [assumption|]. rewrite Hg. now left.
Qed.

(** Where the argument of desktops is the empty array, only the first of
    the given activities yields anything, whatever the others are. *)
Lemma getDesktops_all_desktops_first_activity (a : string) (rest : list string) (w : World) :
  result (getDesktops (a :: rest) []) w
  = flat_map (entries_at w a) (kwinDesktops (this w)).
Proof.
  unfold result. rewrite getDesktops_run. simpl. unfold Set_keys.
  now rewrite matched_entries_exhausted, app_nil_r.
Qed.

(** C10, on the code: with the activity "A" given twice and an array of
    desktops, the entry of (A, D1, S1) is yielded twice; with the same
    activities and the empty array of desktops, which stands for all cached
    desktops through [keys()], it is yielded once: the iterator is used up
    by the first "A". *)
Theorem getDesktops_duplicate_activity_all_desktops :
  result (getDesktops ["A"; "A"]%string [Ex.D1; Ex.D2]) Ex.w2
  = [mkDesktop 0 Ex.D1 Ex.S1; mkDesktop 0 Ex.D1 Ex.S1]
  /\ kwinDesktops (this Ex.w2) = [Ex.D1; Ex.D2]
  /\ result (getDesktops ["A"; "A"]%string []) Ex.w2 = [mkDesktop 0 Ex.D1 Ex.S1].
Proof. repeat split. Qed.

(** ** C2: the teardown *)

Lemma for_of_destroy_run (xs : list Desktop) (w : World) :
  exec (for_of xs (fun desktop => Desktop_destroy desktop)) w
  = mkWorld (this w) (allocated w) (destroyCalls w ++ xs).
Proof.
  revert w. induction xs as [|x xs IH]; intros w; simpl.
  - unfold exec, ret; simpl. rewrite app_nil_r. now destruct w.
  - unfold exec, bind in *; simpl. rewrite IH. simpl. now rewrite <- app_assoc.
Qed.

Lemma exec_destroy (w : World) :
  exec destroy w
  = mkWorld (this w) (allocated w) (destroyCalls w ++ Map_values (desktops (this w))).
Proof.
  unfold destroy. unfold exec, bind at 1, read_this; simpl.
  exact (for_of_destroy_run (Map_values (desktops (this w))) w).
Qed.

(** The map is not empty after the teardown of a registry with entries:
    [getAllDesktops] yields after it what it yielded before. *)
Lemma destroy_leaves_the_entries :
  ~ (forall w : World, result getAllDesktops (exec destroy w) = []).
Proof.
  intros H. specialize (H Ex.w2). vm_compute in H. discriminate H.
Qed.

(** C2, on the code: the teardown calls [destroy] on the desktop of every
    entry of the map, in the order of the map, once for an entry, and
    changes nothing else.  The map is left as it is: [getAllDesktops] yields
    after the teardown what it yielded before, where the claim has it yield
    nothing. *)
Theorem destroy_calls_destroy_once_and_keeps_entries (w : World) :
  exec destroy w
  = mkWorld (this w) (allocated w) (destroyCalls w ++ Map_values (desktops (this w)))
  /\ result getAllDesktops (exec destroy w) = Map_values (desktops (this w))
  /\ (NoDup (Map_values (desktops (this w))) ->
      forall x, In x (Map_values (desktops (this w))) ->
        count_occ Desktop_eq_dec (Map_values (desktops (this w))) x = 1).
Proof.
  rewrite exec_destroy. split; [reflexivity|]. split.
  - unfold result. now rewrite getAllDesktops_run.
  - intros Hnd. now apply NoDup_count_occ'.
Qed.

(** ** Runs of the registry *)

(** The calls that change the state.  [getCurrentDesktop],
    [getDesktopInCurrentActivity] and [getDesktopForClient] are calls of
    [getDesktop]; the generators leave the state as it is. *)
Inductive Call : Type :=
| CallGetDesktop (activity : string) (kwinDesktop : KwinDesktop) (screen : Output)
| CallUpdate (dim : Dimension)
| CallDestroy.

Section Runs.
Variable shouldWorkOnDesktop : KwinDesktop -> bool.

(** One call, with the host as it is at the time of the call. *)
Definition call (ws : Workspace.t) (c : Call) : M unit :=
  match c with
  | CallGetDesktop a d s => getDesktop shouldWorkOnDesktop a d s ;; ret tt
  | CallUpdate dim => update dim ws
  | CallDestroy => destroy
  end.

Definition run (trace : list (Workspace.t * Call)) : M unit :=
  for_of trace (fun e => call (fst e) (snd e)).

(** The state after the constructor. *)
Definition start (ws : Workspace.t) : World := mkWorld (constructor ws) 0 [].

Lemma run_snoc (trace : list (Workspace.t * Call)) (ws : Workspace.t) (c : Call) (w : World) :
  exec (run (trace ++ [(ws, c)])) w = exec (call ws c) (exec (run trace) w).
Proof. unfold run. rewrite !exec_for_of, fold_left_app. reflexivity. Qed.

Lemma exec_call_getDesktop (ws : Workspace.t) (a : string) (d : KwinDesktop) (s : Output)
    (w : World) :
  exec (call ws (CallGetDesktop a d s)) w = exec (getDesktop shouldWorkOnDesktop a d s) w.
Proof. reflexivity. Qed.

(** The entries after a call: those before it, or the one a lookup
    created. *)
Lemma call_entries (ws : Workspace.t) (c : Call) (w : World) (k : string) (x : Desktop) :
  In (k, x) (desktops (this (exec (call ws c) w))) ->
  In (k, x) (desktops (this w))
  \/ exists a d s,
       c = CallGetDesktop a d s /\ k = getDesktopKey a d s
       /\ shouldWorkOnDesktop d = true
       /\ Map_get k (desktops (this w)) = None
       /\ x = mkDesktop (allocated w) d s.
Proof.
  destruct c as [a d s|dim|].
  - rewrite exec_call_getDesktop. unfold exec.
    destruct (shouldWorkOnDesktop d) eqn:Hf;
      [|rewrite (getDesktop_filtered _ _ _ _ _ Hf); simpl; auto].
    destruct (Map_get (getDesktopKey a d s) (desktops (this w))) as [y|] eqn:Hg.
    + rewrite (getDesktop_hit _ _ _ _ _ _ Hf Hg). simpl. auto.
    + rewrite (getDesktop_miss _ _ _ _ _ Hf Hg). simpl.
      rewrite (Map_set_absent _ _ _ Hg), in_app_iff. intros [Hin|[E|[]]]; [auto|].
      injection E as <- <-. right. exists a, d, s. auto.
  - simpl call. rewrite exec_update. intros Hin. left.
    replace (desktops (this _)) with
      (filter (fun e => negb (key_in (staleKeys dim ws (this w)) (fst e)))
         (desktops (this w))) in Hin by (destruct dim; reflexivity).
    now apply filter_In in Hin.
  - simpl call. rewrite exec_destroy. simpl. auto.
Qed.

(** Every entry was created by a lookup of the run: by a call of
    [getDesktop] whose desktop the filter accepted, at a time when the key
    of its triple was absent. *)
Lemma entry_origin (ws0 : Workspace.t) (trace : list (Workspace.t * Call))
    (k : string) (x : Desktop) :
  In (k, x) (desktops (this (exec (run trace) (start ws0)))) ->
  exists pre ws a d s post,
    trace = pre ++ (ws, CallGetDesktop a d s) :: post
    /\ k = getDesktopKey a d s
    /\ shouldWorkOnDesktop d = true
    /\ Map_get k (desktops (this (exec (run pre) (start ws0)))) = None
    /\ x = mkDesktop (allocated (exec (run pre) (start ws0))) d s.
Proof.
  induction trace as [|[ws c] trace IH] using rev_ind.
  - intros [].
  - rewrite run_snoc. intros Hin. apply call_entries in Hin as [Hin|Hnew].
    + destruct (IH Hin) as (pre & ws' & a & d & s & post & -> & Hrest).
      exists pre, ws', a, d, s, (post ++ [(ws, c)]).
      split; [now rewrite <- app_assoc | exact Hrest].
    + destruct Hnew as (a & d & s & -> & Hrest).
      exists trace, ws, a, d, s, []. split; [reflexivity | exact Hrest].
Qed.

End Runs.

(** C5, as stated, fails: [getDesktop] asks the filter and nothing else.
    On a host without activities, desktops or screens the lookup of any
    triple creates an entry, although no component is in a cached set or in
    a set of the host. *)
Lemma getDesktop_creates_outside_every_set :
  ~ (forall (f : KwinDesktop -> bool) (ws0 ws : Workspace.t)
        (pre : list (Workspace.t * Call)) (a : string) (d : KwinDesktop) (s : Output),
        let w := exec (run f pre) (start ws0) in
        Map_get (getDesktopKey a d s) (desktops (this w)) = None ->
        Map_get (getDesktopKey a d s) (desktops (this (exec (getDesktop f a d s) w))) <> None ->
        (In a (kwinActivities (this w)) \/ In a (Workspace.activities ws))
        /\ (In d (kwinDesktops (this w)) \/ In d (Workspace.desktops ws))
        /\ (In s (kwinScreens (this w)) \/ In s (Workspace.screens ws))).
Proof.
  intros H.
  pose (ws := Workspace.mk [] [] [] "A"%string Ex.D1 Ex.S1).
  specialize (H Ex.all ws ws [] "A"%string Ex.D1 Ex.S1).
  destruct H as ([[]|[]] & _); [reflexivity | vm_compute; discriminate].
Qed.

(** C5, amended: every entry of a state that a run of calls reaches from
    the constructor was created by a call of [getDesktop] of that run, for a
    desktop that the filter accepts, at a time when the key of the triple of
    the call held nothing; it is stored under that key and is bound to the
    desktop and the screen of the call.  Membership in a cached set or in a
    set of the host plays no part: in every state, [getDesktop] of a triple
    whose desktop the filter accepts returns a desktop and the map holds it
    under the key of the triple. *)
Theorem entries_created_by_accepted_lookups (f : KwinDesktop -> bool) :
  (forall (ws0 : Workspace.t) (trace : list (Workspace.t * Call)) (k : string) (x : Desktop),
      In (k, x) (desktops (this (exec (run f trace) (start ws0)))) ->
      exists pre ws a d s post,
        trace = pre ++ (ws, CallGetDesktop a d s) :: post
        /\ k = getDesktopKey a d s
        /\ f d = true
        /\ Map_get k (desktops (this (exec (run f pre) (start ws0)))) = None
        /\ x = mkDesktop (allocated (exec (run f pre) (start ws0))) d s)
  /\ (forall (w : World) (a : string) (d : KwinDesktop) (s : Output),
        f d = true ->
        exists x,
          result (getDesktop f a d s) w = Some x
          /\ Map_get (getDesktopKey a d s) (desktops (this (exec (getDesktop f a d s) w)))
             = Some x).
Proof.
  split.
  - intros ws0 trace k x Hin. now apply entry_origin.
  - intros w a d s Hf. now apply getDesktop_stored.
Qed.

Lemma entries_created_by_accepted_lookups_witness :
  (exists pre ws a d s post,
      [(Ex.ws0, CallGetDesktop "A" Ex.D1 Ex.S1)] = pre ++ (ws, CallGetDesktop a d s) :: post
      /\ getDesktopKey "A" Ex.D1 Ex.S1 = getDesktopKey a d s
      /\ Ex.all d = true
      /\ Map_get (getDesktopKey "A" Ex.D1 Ex.S1)
           (desktops (this (exec (run Ex.all pre) (start Ex.ws0)))) = None
      /\ mkDesktop 0 Ex.D1 Ex.S1
         = mkDesktop (allocated (exec (run Ex.all pre) (start Ex.ws0))) d s)
  /\ (exists x,
        result (getDesktop Ex.all "ghost" Ex.D1 Ex.S1)
          (start (Workspace.mk [] [] [] "A"%string Ex.D1 Ex.S1)) = Some x
        /\ Map_get (getDesktopKey "ghost" Ex.D1 Ex.S1)
             (desktops (this (exec (getDesktop Ex.all "ghost" Ex.D1 Ex.S1)
                                (start (Workspace.mk [] [] [] "A"%string Ex.D1 Ex.S1)))))
           = Some x).
Proof.
  split.
  - apply (proj1 (entries_created_by_accepted_lookups Ex.all) Ex.ws0
             [(Ex.ws0, CallGetDesktop "A" Ex.D1 Ex.S1)]
             (getDesktopKey "A" Ex.D1 Ex.S1) (mkDesktop 0 Ex.D1 Ex.S1)).
    vm_compute. left. reflexivity.
  - apply (proj2 (entries_created_by_accepted_lookups Ex.all)). reflexivity.
Defined.

(** ** C7: the order of the passes *)

(** The passes of the listed dimensions, one after the other, on one host. *)
Definition passes (order : list Dimension) (ws : Workspace.t) : M unit :=
  for_of order (fun dim => update dim ws).

Module C7Example.
Import Ex.
(** The host at the start: no activity, the desktop D1, the screen S1. *)
Definition ws_start : Workspace.t := Workspace.mk [] [D1] [S1] "A"%string D1 S1.
(** The host gains the activity "A" ... *)
Definition ws_activity : Workspace.t := Workspace.mk ["A"%string] [D1] [S1] "A"%string D1 S1.
(** ... and then loses the desktop D1. *)
Definition ws_later : Workspace.t := Workspace.mk ["A"%string] [] [S1] "A"%string D1 S1.
(** (A, D1, S1) is looked up while the host has all three; no pass has run. *)
Definition w_looked_up : World :=
  exec (run all [(ws_activity, CallGetDesktop "A" D1 S1)]) (start ws_start).
End C7Example.

(** C7, as stated, fails: the entry of (A, D1, S1) is destroyed when
    [updateActivities] runs before [updateDesktops], since the removal of D1
    then goes through the new activity "A", and it is left when
    [updateDesktops] runs first, on the cached set without "A". *)
Lemma passes_do_not_commute :
  ~ (forall (ws : Workspace.t) (w : World),
        this (exec (passes [Activities; Desktops; Screens] ws) w)
        = this (exec (passes [Desktops; Activities; Screens] ws) w)).
Proof.
  intros H. specialize (H C7Example.ws_later C7Example.w_looked_up).
  vm_compute in H. discriminate H.
Qed.

(** Every entry is stored under the key of a triple of cached values. *)
Definition cached_coordinates (self : DesktopManager) : Prop :=
  forall k, In k (Map_keys (desktops self)) ->
    exists a d s,
      In a (kwinActivities self) /\ In d (kwinDesktops self) /\ In s (kwinScreens self)
      /\ k = getDesktopKey a d s.

(** No activity and no desktop id of the lists holds the separator. *)
Definition sep_free_ids (acts : list string) (ds : list KwinDesktop) : Prop :=
  (forall a, In a acts -> sep_free a = true)
  /\ (forall d, In d ds -> sep_free (id d) = true).

(** The condition under which the passes commute. *)
Definition reconcilable (ws : Workspace.t) (self : DesktopManager) : Prop :=
  cached_coordinates self
  /\ sep_free_ids (kwinActivities self) (kwinDesktops self)
  /\ sep_free_ids (Workspace.activities ws) (Workspace.desktops ws).

(** The component of the key in the dimension, read back from the string,
    is (the id or name of) a cached value that the host no longer has. *)
Definition stale_component (dim : Dimension) (ws : Workspace.t) (self : DesktopManager)
    (k : string) : bool :=
  match parseKey k with
  | Some (a, i, n) =>
      match dim with
      | Activities =>
          Set_has (kwinActivities self) a
          && negb (Set_has (new_Set (Workspace.activities ws)) a)
      | Desktops =>
          existsb (fun d => String.eqb (id d) i
                            && negb (Set_has (new_Set (Workspace.desktops ws)) d))
            (kwinDesktops self)
      | Screens =>
          existsb (fun s => String.eqb (name s) n
                            && negb (Set_has (new_Set (Workspace.screens ws)) s))
            (kwinScreens self)
      end
  | None => false
  end.

(** A pass, by the components of the keys. *)
Definition prune (dim : Dimension) (ws : Workspace.t) (self : DesktopManager) : DesktopManager :=
  refreshed dim ws self
    (filter (fun e => negb (stale_component dim ws self (fst e))) (desktops self)).

Definition prunes (order : list Dimension) (ws : Workspace.t) (self : DesktopManager)
  : DesktopManager :=
  fold_left (fun self dim => prune dim ws self) order self.

Lemma getDesktopKey_ids (a : string) (d d' : KwinDesktop) (s s' : Output) :
  id d = id d' -> name s = name s' -> getDesktopKey a d s = getDesktopKey a d' s'.
Proof. intros Hd Hs. unfold getDesktopKey. now rewrite Hd, Hs. Qed.

(** On the key of a triple of cached values, to be a stale key of a pass is
    to have a stale component. *)
Lemma stale_key_component (dim : Dimension) (ws : Workspace.t) (self : DesktopManager)
    (a : string) (d : KwinDesktop) (s : Output) :
  sep_free_ids (kwinActivities self) (kwinDesktops self) ->
  In a (kwinActivities self) -> In d (kwinDesktops self) -> In s (kwinScreens self) ->
  key_in (staleKeys dim ws self) (getDesktopKey a d s)
  = stale_component dim ws self (getDesktopKey a d s).
Proof.
  intros [Hsa Hsd] Ha Hd Hs.
  unfold stale_component. rewrite (parseKey_getDesktopKey a d s (Hsa a Ha) (Hsd d Hd)).
  apply eq_true_iff_eq. rewrite key_in_In, staleKeys_In. unfold stale_key.
  destruct dim; simpl.
  - rewrite andb_true_iff, negb_true_iff, Set_has_In, Set_has_not_In, new_Set_In. split.
    + intros (a' & d' & s' & Ha' & Hd' & Hs' & Hg & E).
      apply getDesktopKey_inj in E as (-> & _ & _); auto.
    + intros [_ Hg]. exists a, d, s. auto.
  - rewrite existsb_exists. split.
    + intros (a' & d' & s' & Ha' & Hd' & Hs' & Hg & E).
      apply getDesktopKey_inj in E as (_ & E & _); auto.
      exists d'. split; [assumption|].
      rewrite andb_true_iff, negb_true_iff, Set_has_not_In, new_Set_In, String.eqb_eq. auto.
    + intros (d' & Hd' & E).
      rewrite andb_true_iff, negb_true_iff, Set_has_not_In, new_Set_In, String.eqb_eq in E.
      destruct E as [E Hg]. exists a, d', s. repeat (split; [assumption|]).
      now apply getDesktopKey_ids.
  - rewrite existsb_exists. split.
    + intros (a' & d' & s' & Ha' & Hd' & Hs' & Hg & E).
      apply getDesktopKey_inj in E as (_ & _ & E); auto.
      exists s'. split; [assumption|].
      rewrite andb_true_iff, negb_true_iff, Set_has_not_In, new_Set_In, String.eqb_eq. auto.
    + intros (s' & Hs' & E).
      rewrite andb_true_iff, negb_true_iff, Set_has_not_In, new_Set_In, String.eqb_eq in E.
      destruct E as [E Hg]. exists a, d, s'. repeat (split; [assumption|]).
      now apply getDesktopKey_ids.
Qed.

Lemma this_exec_update (dim : Dimension) (ws : Workspace.t) (w : World) :
  sep_free_ids (kwinActivities (this w)) (kwinDesktops (this w)) ->
  cached_coordinates (this w) ->
  this (exec (update dim ws) w) = prune dim ws (this w).
Proof.
  intros Hsep Hc. rewrite exec_update. simpl. unfold prune. f_equal.
  apply filter_ext_in. intros [k x] Hin. simpl. f_equal.
  destruct (Hc k) as (a & d & s & Ha & Hd & Hs & ->).
  { unfold Map_keys. change k with (fst (k, x)). now apply in_map. }
  now apply stale_key_component.
Qed.

Lemma filter_comm {A : Type} (P Q : A -> bool) (l : list A) :
  filter P (filter Q l) = filter Q (filter P l).
Proof.
  rewrite !filter_filter. apply filter_ext. intros x. apply andb_comm.
Qed.

(** The passes, by components, commute: a pass reads the cached set of its
    own dimension only. *)
Lemma prune_comm (dim dim' : Dimension) (ws : Workspace.t) (self : DesktopManager) :
  prune dim ws (prune dim' ws self) = prune dim' ws (prune dim ws self).
Proof.
  destruct dim, dim'; try reflexivity; unfold prune; simpl;
    unfold stale_component; simpl; f_equal; apply filter_comm.
Qed.

Lemma prunes_perm (order order' : list Dimension) (ws : Workspace.t) (self : DesktopManager) :
  Permutation order order' -> prunes order ws self = prunes order' ws self.
Proof.
  intros Hp. revert self. induction Hp as [|x l l' _ IH|x y l|l l' l'' _ IH1 _ IH2];
    intros self; simpl.
  - reflexivity.
  - apply IH.
  - now rewrite prune_comm.
  - now rewrite IH1, IH2.
Qed.

(** The condition is kept by a pass. *)
Lemma reconcilable_prune (dim : Dimension) (ws : Workspace.t) (self : DesktopManager) :
  reconcilable ws self -> reconcilable ws (prune dim ws self).
Proof.
  intros (Hc & [Hsa Hsd] & [Hha Hhd]). split; [|split; [|split; assumption]].
  - intros k Hk.
    assert (Hk' : In k (Map_keys (desktops self))
                  /\ stale_component dim ws self k = false).
    { unfold Map_keys in *. apply in_map_iff in Hk as ([k' x] & <- & Hin).
      replace (desktops (prune dim ws self)) with
        (filter (fun e => negb (stale_component dim ws self (fst e))) (desktops self)) in Hin
        by (destruct dim; reflexivity).
      apply filter_In in Hin as [Hin Hst]. apply negb_true_iff in Hst. simpl in *.
      split; [|assumption]. change k' with (fst (k', x)). now apply in_map. }
    destruct Hk' as [Hold Hst].
    destruct (Hc k Hold) as (a & d & s & Ha & Hd & Hs & ->).
    unfold stale_component in Hst.
    rewrite (parseKey_getDesktopKey a d s (Hsa a Ha) (Hsd d Hd)) in Hst.
    exists a, d, s. destruct dim; simpl in *.
    + apply andb_false_iff in Hst as [Hst|Hst].
      * apply Set_has_not_In in Hst. contradiction.
      * apply negb_false_iff, Set_has_In in Hst. auto.
    + repeat split; try assumption.
      destruct (Set_has (new_Set (Workspace.desktops ws)) d) eqn:E;
        [now apply Set_has_In in E|].
      exfalso. assert (Hex : existsb (fun d0 => String.eqb (id d0) (id d)
                     && negb (Set_has (new_Set (Workspace.desktops ws)) d0))
                 (kwinDesktops self) = true).
      { apply existsb_exists. exists d. split; [assumption|].
        now rewrite String.eqb_refl, E. }
      congruence.
    + repeat split; try assumption.
      destruct (Set_has (new_Set (Workspace.screens ws)) s) eqn:E;
        [now apply Set_has_In in E|].
      exfalso. assert (Hex : existsb (fun s0 => String.eqb (name s0) (name s)
                     && negb (Set_has (new_Set (Workspace.screens ws)) s0))
                 (kwinScreens self) = true).
      { apply existsb_exists. exists s. split; [assumption|].
        now rewrite String.eqb_refl, E. }
      congruence.
  - destruct dim; simpl; split; try assumption.
    + intros a Ha. apply Hha. exact (proj1 (new_Set_In _ _) Ha).
    + intros d Hd. apply Hhd. exact (proj1 (new_Set_In _ _) Hd).
Qed.

Lemma this_exec_passes (order : list Dimension) (ws : Workspace.t) (w : World) :
  reconcilable ws (this w) ->
  this (exec (passes order ws) w) = prunes order ws (this w).
Proof.
  unfold passes. rewrite exec_for_of. revert w.
  induction order as [|dim order IH]; intros w Hr; simpl; [reflexivity|].
  assert (E : this (exec (update dim ws) w) = prune dim ws (this w))
    by (apply this_exec_update; apply Hr).
  rewrite IH, E; [reflexivity|]. rewrite E. now apply reconcilable_prune.
Qed.

(** C7, amended: when every entry is stored under the key of a triple of
    cached values, and neither the cached nor the host's activities and
    desktop ids hold the separator, the three passes leave the same entries
    and the same cached sets in each of their six orders. *)
Theorem passes_commute_on_cached_coordinates (order : list Dimension)
    (ws : Workspace.t) (w : World) :
  cached_coordinates (this w) ->
  sep_free_ids (kwinActivities (this w)) (kwinDesktops (this w)) ->
  sep_free_ids (Workspace.activities ws) (Workspace.desktops ws) ->
  Permutation order [Activities; Desktops; Screens] ->
  this (exec (passes order ws) w)
  = this (exec (passes [Activities; Desktops; Screens] ws) w).
Proof.
  intros Hc Hs Hh Hp.
  assert (Hr : reconcilable ws (this w)) by (repeat split; (apply Hc || apply Hs || apply Hh)).
  rewrite !this_exec_passes by assumption. now apply prunes_perm.
Qed.

Lemma passes_commute_on_cached_coordinates_witness :
  let ws := Workspace.mk ["A"%string] [Ex.D2] [Ex.S1] "A"%string Ex.D2 Ex.S1 in
  this (exec (passes [Desktops; Activities; Screens] ws) Ex.w2)
  = this (exec (passes [Activities; Desktops; Screens] ws) Ex.w2).
Proof.
  intros ws.
  apply (@passes_commute_on_cached_coordinates [Desktops; Activities; Screens] ws Ex.w2).
  - intros k [<-|[<-|[]]].
    + exists "A"%string, Ex.D1, Ex.S1. simpl. tauto.
    + exists "B"%string, Ex.D1, Ex.S1. simpl. tauto.
  - split.
    + intros a [<-|[<-|[]]]; reflexivity.
    + intros d [<-|[<-|[]]]; reflexivity.
  - split.
    + intros a [<-|[]]; reflexivity.
    + intros d [<-|[]]; reflexivity.
  - apply perm_swap.
Defined.

Module C7Separator.
Import Ex.
Definition Dk : KwinDesktop := mkKwinDesktop 5 "y|z".
Definition Dr : KwinDesktop := mkKwinDesktop 6 "z".
Definition ws_start : Workspace.t := Workspace.mk ["x"%string] [Dk; Dr] [S1] "x"%string Dk S1.
(** The host gains the activity "x|y" and loses the desktop Dr. *)
Definition ws_later : Workspace.t :=
  Workspace.mk ["x"; "x|y"]%string [Dk] [S1] "x"%string Dk S1.
Definition w_looked_up : World :=
  exec (run all [(ws_start, CallGetDesktop "x" Dk S1)]) (start ws_start).
End C7Separator.

(** The condition on the separator is needed: here the only entry is stored
    under the key of a triple of cached values, and this key is also the key
    of ("x|y", Dr, S1); the passes leave it in one order and destroy it in
    the other. *)
Lemma passes_do_not_commute_with_separator :
  cached_coordinates (this C7Separator.w_looked_up)
  /\ this (exec (passes [Activities; Desktops; Screens] C7Separator.ws_later)
             C7Separator.w_looked_up)
     <> this (exec (passes [Desktops; Activities; Screens] C7Separator.ws_later)
                C7Separator.w_looked_up).
Proof.
  split.
  - intros k [<-|[]]. exists "x"%string, C7Separator.Dk, Ex.S1. simpl. tauto.
  - vm_compute. discriminate.
Qed.

(** ** The states that runs reach *)

(** The keys of the map are distinct, its desktops are distinct objects, and
    every one of them was allocated. *)
Definition registry_ok (w : World) : Prop :=
  NoDup (Map_keys (desktops (this w)))
  /\ NoDup (map desktop_obj (Map_values (desktops (this w))))
  /\ forall x, In x (Map_values (desktops (this w))) -> desktop_obj x < allocated w.

Lemma NoDup_map_filter {A B : Type} (f : A -> B) (P : A -> bool) (l : list A) :
  NoDup (map f l) -> NoDup (map f (filter P l)).
Proof.
  induction l as [|x l IH]; simpl; intros Hnd; [constructor|].
  inversion Hnd as [|? ? Hx Hl]; subst.
  destruct (P x); simpl; [|now apply IH].
  constructor; [|now apply IH].
  intros Hin. apply Hx. apply in_map_iff in Hin as (y & E & Hy).
  apply filter_In in Hy as [Hy _]. rewrite <- E. now apply in_map.
Qed.

Section ReachableStates.
Variable shouldWorkOnDesktop : KwinDesktop -> bool.

Lemma registry_ok_start (ws : Workspace.t) : registry_ok (start ws).
Proof. repeat split; simpl; try constructor. intros x []. Qed.

Lemma registry_ok_call (ws : Workspace.t) (c : Call) (w : World) :
  registry_ok w -> registry_ok (exec (call shouldWorkOnDesktop ws c) w).
Proof.
  intros (Hk & Ho & Hb). destruct c as [a d s|dim|].
  - rewrite exec_call_getDesktop. unfold exec.
    destruct (shouldWorkOnDesktop d) eqn:Hf;
      [|rewrite (getDesktop_filtered _ _ _ _ _ Hf); simpl; repeat split; assumption].
    destruct (Map_get (getDesktopKey a d s) (desktops (this w))) as [y|] eqn:Hg.
    + rewrite (getDesktop_hit _ _ _ _ _ _ Hf Hg). simpl. repeat split; assumption.
    + rewrite (getDesktop_miss _ _ _ _ _ Hf Hg). unfold registry_ok, created. simpl.
      rewrite (Map_set_absent _ _ _ Hg). unfold Map_keys, Map_values in *.
      rewrite !map_app. simpl. repeat split.
      * apply NoDup_app; [assumption | repeat constructor; simpl; tauto |].
        intros k Hin [<-|[]]. now apply Map_get_None in Hg.
      * apply NoDup_app; [assumption | repeat constructor; simpl; tauto |].
        intros n Hin [<-|[]]. apply in_map_iff in Hin as (x & E & Hx).
        apply Hb in Hx. lia.
      * intros x Hx. apply in_app_iff in Hx as [Hx|[<-|[]]]; simpl; [|lia].
        apply Hb in Hx. lia.
  - simpl call. rewrite exec_update. unfold registry_ok. simpl.
    replace (desktops (refreshed dim ws (this w) _)) with
      (filter (fun e => negb (key_in (staleKeys dim ws (this w)) (fst e)))
         (desktops (this w))) by (destruct dim; reflexivity).
    unfold Map_keys, Map_values in *. repeat split.
    + now apply NoDup_map_filter.
    + rewrite map_map in Ho |- *. now apply NoDup_map_filter.
    + intros x Hx. apply Hb. apply in_map_iff in Hx as (e & E & He).
      apply filter_In in He as [He _]. rewrite <- E. now apply in_map.
  - simpl call. rewrite exec_destroy. unfold registry_ok. simpl. repeat split; assumption.
Qed.

(** Every state a run reaches from the constructor has distinct keys and
    distinct desktops. *)
Lemma registry_ok_run (ws0 : Workspace.t) (trace : list (Workspace.t * Call)) :
  registry_ok (exec (run shouldWorkOnDesktop trace) (start ws0)).
Proof.
  induction trace as [|[ws c] trace IH] using rev_ind.
  - apply registry_ok_start.
  - rewrite run_snoc. now apply registry_ok_call.
Qed.

Lemma distinct_desktops_run (ws0 : Workspace.t) (trace : list (Workspace.t * Call)) :
  NoDup (Map_values (desktops (this (exec (run shouldWorkOnDesktop trace) (start ws0))))).
Proof.
  destruct (registry_ok_run ws0 trace) as (_ & Ho & _).
  now apply NoDup_map_inv in Ho.
Qed.
End ReachableStates.

(** * More properties of the methods *)

(** ** Lookups *)

(** [getDesktopForClient]: a client that is not on exactly one activity and
    exactly one desktop gets [undefined], and nothing changes. *)
Theorem getDesktopForClient_needs_one_activity_and_one_desktop
    (f : KwinDesktop -> bool) (kwinClient : KwinClient.t) (w : World) :
  List.length (KwinClient.activities kwinClient) <> 1
  \/ List.length (KwinClient.desktops kwinClient) <> 1 ->
  getDesktopForClient f kwinClient w = (None, w).
Proof.
  unfold getDesktopForClient.
  destruct (KwinClient.activities kwinClient) as [|a [|a' acts]];
    destruct (KwinClient.desktops kwinClient) as [|d [|d' ds]]; simpl;
    intros [H|H]; try reflexivity; congruence.
Qed.

Lemma getDesktopForClient_needs_one_activity_and_one_desktop_witness :
  getDesktopForClient Ex.all (KwinClient.mk ["A"; "B"]%string [Ex.D1] Ex.S1) Ex.w2
  = (None, Ex.w2).
Proof.
  apply (getDesktopForClient_needs_one_activity_and_one_desktop Ex.all
           (KwinClient.mk ["A"; "B"]%string [Ex.D1] Ex.S1) Ex.w2).
  left. simpl. discriminate.
Defined.

(** [getDesktop] on a triple whose key is absent, for a desktop the filter
    accepts: the result is a new [Desktop] bound to the desktop and the
    screen given, an object that is not in the map; it is stored under the
    key of the triple, as the last entry; the other keys hold what they
    held. *)
Theorem getDesktop_creates_new_last_entry (f : KwinDesktop -> bool)
    (a : string) (d : KwinDesktop) (s : Output) (w : World) :
  f d = true ->
  Map_get (getDesktopKey a d s) (desktops (this w)) = None ->
  registry_ok w ->
  let w' := exec (getDesktop f a d s) w in
  exists x,
    result (getDesktop f a d s) w = Some x
    /\ kwinDesktop x = d /\ screen x = s
    /\ ~ In x (Map_values (desktops (this w)))
    /\ desktops (this w') = desktops (this w) ++ [(getDesktopKey a d s, x)]
    /\ result getAllDesktops w' = result getAllDesktops w ++ [x]
    /\ (forall k, k <> getDesktopKey a d s ->
          Map_get k (desktops (this w')) = Map_get k (desktops (this w)))
    /\ registry_ok w'.
Proof.
  intros Hf Hg Hok w'. subst w'.
  assert (Hok' : registry_ok (created a d s w)).
  { pose proof (registry_ok_call f Ex.ws0 (CallGetDesktop a d s) w Hok) as H.
    rewrite exec_call_getDesktop in H. unfold exec in H.
    now rewrite (getDesktop_miss f a d s w Hf Hg) in H. }
  unfold result, exec.
  rewrite (getDesktop_miss f a d s w Hf Hg), !getAllDesktops_run. simpl.
  exists (mkDesktop (allocated w) d s).
  split; [reflexivity|]. split; [reflexivity|]. split; [reflexivity|].
  split; [|split; [|split; [|split; [|exact Hok']]]].
  - intros Hin. destruct Hok as (_ & _ & Hb). apply Hb in Hin. simpl in Hin. lia.
  - now rewrite (Map_set_absent _ _ _ Hg).
  - rewrite (Map_set_absent _ _ _ Hg). unfold Map_values. now rewrite map_app.
  - intros k Hk. rewrite Map_get_set. now destruct (String.eqb_spec k (getDesktopKey a d s)).
Qed.

Lemma getDesktop_creates_new_last_entry_witness :
  let w' := exec (getDesktop Ex.all "A" Ex.D2 Ex.S1) Ex.w2 in
  exists x,
    result (getDesktop Ex.all "A" Ex.D2 Ex.S1) Ex.w2 = Some x
    /\ kwinDesktop x = Ex.D2 /\ screen x = Ex.S1
    /\ ~ In x (Map_values (desktops (this Ex.w2)))
    /\ desktops (this w') = desktops (this Ex.w2) ++ [(getDesktopKey "A" Ex.D2 Ex.S1, x)]
    /\ result getAllDesktops w' = result getAllDesktops Ex.w2 ++ [x]
    /\ (forall k, k <> getDesktopKey "A" Ex.D2 Ex.S1 ->
          Map_get k (desktops (this w')) = Map_get k (desktops (this Ex.w2)))
    /\ registry_ok w'.
Proof.
  apply (getDesktop_creates_new_last_entry Ex.all "A" Ex.D2 Ex.S1 Ex.w2).
  - reflexivity.
  - reflexivity.
  - exact (registry_ok_run Ex.all Ex.ws0
             [(Ex.ws0, CallGetDesktop "A" Ex.D1 Ex.S1); (Ex.ws0, CallGetDesktop "B" Ex.D1 Ex.S1)]).
Defined.

Lemma getDesktop_keeps_cached_sets (f : KwinDesktop -> bool)
    (a : string) (d : KwinDesktop) (s : Output) (w : World) :
  kwinActivities (this (exec (getDesktop f a d s) w)) = kwinActivities (this w)
  /\ kwinDesktops (this (exec (getDesktop f a d s) w)) = kwinDesktops (this w)
  /\ kwinScreens (this (exec (getDesktop f a d s) w)) = kwinScreens (this w).
Proof.
  unfold exec. destruct (f d) eqn:Hf.
  - destruct (Map_get (getDesktopKey a d s) (desktops (this w))) as [y|] eqn:Hg.
    + rewrite (getDesktop_hit f a d s w y Hf Hg). simpl. auto.
    + rewrite (getDesktop_miss f a d s w Hf Hg). simpl. auto.
  - rewrite (getDesktop_filtered f a d s w Hf). simpl. auto.
Qed.

(** [getDesktop] only ever adds: it calls no [destroy], leaves the cached
    sets alone, keeps every entry under its key, and constructs at most one
    [Desktop]. *)
Theorem getDesktop_only_adds (f : KwinDesktop -> bool)
    (a : string) (d : KwinDesktop) (s : Output) (w : World) :
  let w' := exec (getDesktop f a d s) w in
  destroyCalls w' = destroyCalls w
  /\ kwinActivities (this w') = kwinActivities (this w)
  /\ kwinDesktops (this w') = kwinDesktops (this w)
  /\ kwinScreens (this w') = kwinScreens (this w)
  /\ (forall k x, Map_get k (desktops (this w)) = Some x ->
        Map_get k (desktops (this w')) = Some x)
  /\ allocated w <= allocated w' <= S (allocated w).
Proof.
  intros w'. subst w'.
  assert (Hkeep : forall k x, Map_get k (desktops (this w)) = Some x ->
            Map_get k (desktops (this (exec (getDesktop f a d s) w))) = Some x)
    by (intros k x; apply getDesktop_keeps).
  unfold exec in *. destruct (f d) eqn:Hf.
  - destruct (Map_get (getDesktopKey a d s) (desktops (this w))) as [y|] eqn:Hg.
    + rewrite (getDesktop_hit f a d s w y Hf Hg) in *. simpl. repeat split; auto.
    + rewrite (getDesktop_miss f a d s w Hf Hg) in *. simpl. repeat split; auto.
  - rewrite (getDesktop_filtered f a d s w Hf) in *. simpl. repeat split; auto.
Qed.

(** The key is made of the id of the desktop and the name of the screen, so
    a lookup with other objects of the same id and name finds the entry: the
    [Desktop] returned is the one stored, bound to the objects it was created
    with. *)
Theorem getDesktop_finds_by_id_and_name (f : KwinDesktop -> bool)
    (a : string) (d d' : KwinDesktop) (s s' : Output) (w : World) (x : Desktop) :
  id d = id d' -> name s = name s' -> f d' = true ->
  Map_get (getDesktopKey a d s) (desktops (this w)) = Some x ->
  getDesktop f a d' s' w = (Some x, w).
Proof.
  intros Hd Hs Hf Hg. apply getDesktop_hit; [assumption|].
  now rewrite <- (getDesktopKey_ids a d d' s s' Hd Hs).
Qed.

Lemma getDesktop_finds_by_id_and_name_witness :
  getDesktop Ex.all "A" (mkKwinDesktop 9 "d1") (mkOutput 19 "HDMI-1") Ex.w2
  = (Some (mkDesktop 0 Ex.D1 Ex.S1), Ex.w2).
Proof.
  apply (getDesktop_finds_by_id_and_name Ex.all "A" Ex.D1 (mkKwinDesktop 9 "d1")
           Ex.S1 (mkOutput 19 "HDMI-1") Ex.w2 (mkDesktop 0 Ex.D1 Ex.S1));
    reflexivity.
Defined.

(** ** Destroying and the passes *)

(** [destroyDesktop]: where the key of the triple holds a desktop, [destroy]
    is called on it, once, and the key is removed; the other keys, the
    cached sets and the allocation are left alone.  Where the key holds
    nothing, nothing happens. *)
Theorem destroyDesktop_removes_or_skips
    (a : string) (d : KwinDesktop) (s : Output) (w : World) :
  let w' := exec (destroyDesktop a d s) w in
  match Map_get (getDesktopKey a d s) (desktops (this w)) with
  | Some x =>
      destroyCalls w' = destroyCalls w ++ [x]
      /\ Map_get (getDesktopKey a d s) (desktops (this w')) = None
      /\ (forall k, k <> getDesktopKey a d s ->
            Map_get k (desktops (this w')) = Map_get k (desktops (this w)))
      /\ kwinActivities (this w') = kwinActivities (this w)
      /\ kwinDesktops (this w') = kwinDesktops (this w)
      /\ kwinScreens (this w') = kwinScreens (this w)
      /\ allocated w' = allocated w
  | None => w' = w
  end.
Proof.
  intros w'. subst w'. rewrite exec_destroyDesktop. unfold destroyKey.
  destruct (Map_get (getDesktopKey a d s) (desktops (this w))) as [x|] eqn:E; [|reflexivity].
  simpl. repeat split.
  - now rewrite Map_get_delete, String.eqb_refl.
  - intros k Hk. rewrite Map_get_delete.
    now destruct (String.eqb_spec (getDesktopKey a d s) k); [congruence|].
Qed.

Lemma Map_delete_values_perm (k : string) (x : Desktop) (m : JSMap) :
  NoDup (Map_keys m) -> Map_get k m = Some x ->
  Permutation (Map_values m) (x :: Map_values (Map_delete k m)).
Proof.
  induction m as [|[k' v'] m IH]; [discriminate|].
  intros Hnd Hg. inversion Hnd as [|? ? Hk' Hnd']; subst.
  change (Map_delete k ((k', v') :: m))
    with (if negb (String.eqb k k') then (k', v') :: Map_delete k m else Map_delete k m).
  simpl in Hg. destruct (String.eqb_spec k k') as [->|Hk]; simpl.
  - injection Hg as ->.
    rewrite (Map_delete_absent k' m); [reflexivity|]. now apply Map_get_None.
  - rewrite perm_swap. apply perm_skip. now apply IH.
Qed.

Lemma Map_delete_keys_NoDup (k : string) (m : JSMap) :
  NoDup (Map_keys m) -> NoDup (Map_keys (Map_delete k m)).
Proof. unfold Map_keys, Map_delete. apply NoDup_map_filter. Qed.

(** The desktops of the map before the keys are destroyed are those called
    and those left. *)
Lemma destroyKeys_partition (ks : list string) (w : World) :
  NoDup (Map_keys (desktops (this w))) ->
  exists called,
    destroyCalls (destroyKeys ks w) = destroyCalls w ++ called
    /\ Permutation (Map_values (desktops (this w)))
         (called ++ Map_values (desktops (this (destroyKeys ks w)))).
Proof.
  revert w. induction ks as [|k ks IH]; intros w Hnd; simpl.
  - exists []. split; [now rewrite app_nil_r | reflexivity].
  - assert (Hnd' : NoDup (Map_keys (desktops (this (destroyKey k w)))))
      by (rewrite destroyKey_desktops; now apply Map_delete_keys_NoDup).
    destruct (IH (destroyKey k w) Hnd') as (called & Hc & Hp).
    unfold destroyKeys in *. rewrite Hc.
    unfold destroyKey in *.
    destruct (Map_get k (desktops (this w))) as [x|] eqn:E; simpl in *.
    + exists (x :: called). split; [now rewrite <- app_assoc|].
      rewrite (Map_delete_values_perm k x _ Hnd E). simpl. now apply perm_skip.
    + exists called. auto.
Qed.

Lemma update_partition (dim : Dimension) (ws : Workspace.t) (w : World) :
  NoDup (Map_keys (desktops (this w))) ->
  exists called,
    destroyCalls (exec (update dim ws) w) = destroyCalls w ++ called
    /\ Permutation (Map_values (desktops (this w)))
         (called ++ Map_values (desktops (this (exec (update dim ws) w)))).
Proof.
  intros Hnd. rewrite exec_update.
  destruct (destroyKeys_partition (staleKeys dim ws (this w)) w Hnd) as (called & Hc & Hp).
  exists called. split; [exact Hc|].
  rewrite destroyKeys_desktops in Hp. destruct dim; exact Hp.
Qed.

(** A pass neither loses nor keeps what it destroys: with distinct keys, the
    desktops of the map before the pass are, each once, either among those
    the pass calls [destroy] on or still in the map after it. *)
Theorem update_destroys_exactly_what_it_removes
    (dim : Dimension) (ws : Workspace.t) (w : World) :
  NoDup (Map_keys (desktops (this w))) ->
  let w' := exec (update dim ws) w in
  exists called,
    destroyCalls w' = destroyCalls w ++ called
    /\ Permutation (Map_values (desktops (this w)))
         (called ++ Map_values (desktops (this w'))).
Proof.
  intros Hnd w'. subst w'. now apply update_partition.
Qed.

Lemma update_destroys_exactly_what_it_removes_witness :
  let ws := Workspace.mk ["A"%string] [Ex.D1; Ex.D2] [Ex.S1] "A"%string Ex.D1 Ex.S1 in
  let w' := exec (update Activities ws) Ex.w2 in
  exists called,
    destroyCalls w' = destroyCalls Ex.w2 ++ called
    /\ Permutation (Map_values (desktops (this Ex.w2)))
         (called ++ Map_values (desktops (this w'))).
Proof.
  intros ws.
  apply (update_destroys_exactly_what_it_removes Activities ws Ex.w2).
  repeat constructor; simpl; intuition discriminate.
Defined.



(** The cached set of a dimension in a manager. *)
Definition cached_is_host (dim : Dimension) (ws : Workspace.t) (self : DesktopManager) : Prop :=
  match dim with
  | Activities =>
      NoDup (kwinActivities self)
      /\ forall a, In a (kwinActivities self) <-> In a (Workspace.activities ws)
  | Desktops =>
      NoDup (kwinDesktops self)
      /\ forall d, In d (kwinDesktops self) <-> In d (Workspace.desktops ws)
  | Screens =>
      NoDup (kwinScreens self)
      /\ forall s, In s (kwinScreens self) <-> In s (Workspace.screens ws)
  end.

(** The cached sets of the dimensions other than [dim] are the same. *)
Definition other_cached_same (dim : Dimension) (self self' : DesktopManager) : Prop :=
  match dim with
  | Activities =>
      kwinDesktops self' = kwinDesktops self /\ kwinScreens self' = kwinScreens self
  | Desktops =>
      kwinActivities self' = kwinActivities self /\ kwinScreens self' = kwinScreens self
  | Screens =>
      kwinActivities self' = kwinActivities self /\ kwinDesktops self' = kwinDesktops self
  end.

(** After a pass the cached set of its dimension has the values of the
    host, each once; the two other cached sets are as before; no [Desktop]
    is constructed; and an entry found after the pass was there before it,
    under the same key. *)
Theorem update_refreshes_one_cached_set (dim : Dimension) (ws : Workspace.t) (w : World) :
  let w' := exec (update dim ws) w in
  cached_is_host dim ws (this w')
  /\ other_cached_same dim (this w) (this w')
  /\ allocated w' = allocated w
  /\ (forall k x, Map_get k (desktops (this w')) = Some x ->
        Map_get k (desktops (this w)) = Some x)
  /\ List.length (desktops (this w')) <= List.length (desktops (this w)).
Proof.
  intros w'. subst w'. rewrite exec_update. simpl.
  assert (Hd : desktops (refreshed dim ws (this w)
                 (filter (fun e => negb (key_in (staleKeys dim ws (this w)) (fst e)))
                    (desktops (this w))))
               = filter (fun e => negb (key_in (staleKeys dim ws (this w)) (fst e)))
                   (desktops (this w))) by (destruct dim; reflexivity).
  rewrite Hd. repeat split.
  - destruct dim; simpl; (split; [apply new_Set_NoDup | intros; apply new_Set_In]).
  - destruct dim; simpl; auto.
  - intros k x. rewrite (Map_get_filter (fun y => negb (key_in (staleKeys dim ws (this w)) y))).
    now destruct (key_in (staleKeys dim ws (this w)) k).
  - apply filter_length_le.
Qed.

Lemma destroyKeys_calls_grow (ks : list string) (w : World) (x : Desktop) :
  In x (destroyCalls w) -> In x (destroyCalls (destroyKeys ks w)).
Proof.
  destruct (destroyKeys_calls ks w) as (called & -> & _). intros Hx.
  apply in_app_iff. now left.
Qed.

(** [destroy] is called on the desktop of every listed key that holds one. *)
Lemma destroyKeys_calls_present (ks : list string) (w : World) (k : string) (x : Desktop) :
  In k ks -> Map_get k (desktops (this w)) = Some x ->
  In x (destroyCalls (destroyKeys ks w)).
Proof.
  revert w. induction ks as [|k0 ks IH]; intros w Hk Hg; [contradiction|].
  simpl. fold (destroyKeys ks (destroyKey k0 w)).
  destruct (String.eqb_spec k0 k) as [->|Hne].
  - apply destroyKeys_calls_grow. unfold destroyKey. rewrite Hg. simpl.
    apply in_app_iff. right. now left.
  - destruct Hk as [E|Hk]; [congruence|].
    apply IH; [assumption|]. rewrite destroyKey_desktops, Map_get_delete.
    now destruct (String.eqb_spec k0 k); [congruence|].
Qed.

(** A lookup after a pass has removed the entry of the triple: [destroy] was
    called on the desktop that the key held, and the lookup constructs a
    [Desktop] that is another object. *)
Theorem getDesktop_after_removal_creates_another (f : KwinDesktop -> bool)
    (dim : Dimension) (ws : Workspace.t) (w : World)
    (a : string) (d : KwinDesktop) (s : Output) (x : Desktop) :
  registry_ok w ->
  f d = true ->
  In a (kwinActivities (this w)) -> In d (kwinDesktops (this w)) ->
  In s (kwinScreens (this w)) ->
  gone ws dim a d s ->
  Map_get (getDesktopKey a d s) (desktops (this w)) = Some x ->
  let w1 := exec (update dim ws) w in
  In x (destroyCalls w1)
  /\ exists y,
       result (getDesktop f a d s) w1 = Some y
       /\ desktop_obj y <> desktop_obj x
       /\ kwinDesktop y = d /\ screen y = s
       /\ Map_get (getDesktopKey a d s) (desktops (this (exec (getDesktop f a d s) w1)))
          = Some y.
Proof.
  intros (_ & _ & Hb) Hf Ha Hd Hs Hg Hx w1.
  assert (Hst : In (getDesktopKey a d s) (staleKeys dim ws (this w))).
  { apply staleKeys_In. exists a, d, s. auto. }
  assert (Hnone : Map_get (getDesktopKey a d s) (desktops (this w1)) = None).
  { subst w1. rewrite exec_update.
    replace (desktops (this _)) with
      (filter (fun e => negb (key_in (staleKeys dim ws (this w)) (fst e)))
         (desktops (this w))) by (destruct dim; reflexivity).
    rewrite (Map_get_filter (fun y => negb (key_in (staleKeys dim ws (this w)) y))).
    apply key_in_In in Hst. now rewrite Hst. }
  assert (Hal : allocated w1 = allocated w) by (subst w1; now rewrite exec_update).
  split.
  - subst w1. rewrite exec_update. simpl. now apply destroyKeys_calls_present with (k := getDesktopKey a d s).
  - exists (mkDesktop (allocated w1) d s). unfold result, exec.
    rewrite (getDesktop_miss f a d s w1 Hf Hnone). simpl.
    repeat split.
    + rewrite Hal. assert (Hin : In x (Map_values (desktops (this w)))).
      { apply Map_get_In in Hx. unfold Map_values.
        change x with (snd (getDesktopKey a d s, x)). now apply in_map. }
      apply Hb in Hin. lia.
    + now rewrite Map_get_set, String.eqb_refl.
Qed.

Lemma getDesktop_after_removal_creates_another_witness :
  let ws := Workspace.mk ["A"%string] [Ex.D1; Ex.D2] [Ex.S1] "A"%string Ex.D1 Ex.S1 in
  let w1 := exec (update Activities ws) Ex.w2 in
  In (mkDesktop 1 Ex.D1 Ex.S1) (destroyCalls w1)
  /\ exists y,
       result (getDesktop Ex.all "B" Ex.D1 Ex.S1) w1 = Some y
       /\ desktop_obj y <> desktop_obj (mkDesktop 1 Ex.D1 Ex.S1)
       /\ kwinDesktop y = Ex.D1 /\ screen y = Ex.S1
       /\ Map_get (getDesktopKey "B" Ex.D1 Ex.S1)
            (desktops (this (exec (getDesktop Ex.all "B" Ex.D1 Ex.S1) w1)))
          = Some y.
Proof.
  intros ws.
  apply (getDesktop_after_removal_creates_another Ex.all Activities ws Ex.w2
           "B" Ex.D1 Ex.S1 (mkDesktop 1 Ex.D1 Ex.S1)).
  - exact (registry_ok_run Ex.all Ex.ws0
             [(Ex.ws0, CallGetDesktop "A" Ex.D1 Ex.S1); (Ex.ws0, CallGetDesktop "B" Ex.D1 Ex.S1)]).
  - reflexivity.
  - vm_compute; tauto.
  - vm_compute; tauto.
  - vm_compute; tauto.
  - simpl. intros [E|[]]. discriminate E.
  - reflexivity.
Defined.

(** ** The life of a desktop *)

(** The desktops of the map and the desktops [destroy] was called on are
    distinct objects, all of them allocated. *)
Definition lifecycle_ok (w : World) : Prop :=
  NoDup (Map_keys (desktops (this w)))
  /\ NoDup (map desktop_obj (Map_values (desktops (this w)) ++ destroyCalls w))
  /\ forall x, In x (Map_values (desktops (this w)) ++ destroyCalls w) ->
               desktop_obj x < allocated w.

(** No call of the run is the teardown. *)
Definition no_teardown (trace : list (Workspace.t * Call)) : Prop :=
  forall ws, ~ In (ws, CallDestroy) trace.

Section Lifecycle.
Variable shouldWorkOnDesktop : KwinDesktop -> bool.

Lemma lifecycle_ok_start (ws : Workspace.t) : lifecycle_ok (start ws).
Proof. repeat split; simpl; try constructor. intros x []. Qed.

Lemma lifecycle_ok_call (ws : Workspace.t) (c : Call) (w : World) :
  c <> CallDestroy -> lifecycle_ok w ->
  lifecycle_ok (exec (call shouldWorkOnDesktop ws c) w).
Proof.
  intros Hc (Hk & Ho & Hb). destruct c as [a d s|dim|]; [| |congruence].
  - rewrite exec_call_getDesktop. unfold exec.
    destruct (shouldWorkOnDesktop d) eqn:Hf;
      [|rewrite (getDesktop_filtered _ _ _ _ _ Hf); simpl; repeat split; assumption].
    destruct (Map_get (getDesktopKey a d s) (desktops (this w))) as [y|] eqn:Hg.
    + rewrite (getDesktop_hit _ _ _ _ _ _ Hf Hg). simpl. repeat split; assumption.
    + rewrite (getDesktop_miss _ _ _ _ _ Hf Hg). unfold lifecycle_ok, created. simpl.
      rewrite (Map_set_absent _ _ _ Hg). unfold Map_keys, Map_values in *.
      rewrite !map_app in *. simpl. repeat split.
      * apply NoDup_app; [assumption | repeat constructor; simpl; tauto |].
        intros k Hin [<-|[]]. now apply Map_get_None in Hg.
      * rewrite <- app_assoc. simpl.
        apply (Permutation_NoDup (l := allocated w
                 :: map desktop_obj (map snd (desktops (this w)))
                    ++ map desktop_obj (destroyCalls w))).
        { apply Permutation_middle. }
        constructor; [|assumption].
        intros Hin. rewrite <- map_app in Hin.
        apply in_map_iff in Hin as (x & E & Hx). apply Hb in Hx. lia.
      * intros x Hx. rewrite <- app_assoc in Hx.
        apply in_app_iff in Hx as [Hx|[<-|Hx]]; simpl; [|lia|].
        -- assert (H : desktop_obj x < allocated w)
             by (apply Hb, in_app_iff; now left). lia.
        -- assert (H : desktop_obj x < allocated w)
             by (apply Hb, in_app_iff; now right). lia.
  - simpl call.
    destruct (update_partition dim ws w Hk) as (called & Hc' & Hp).
    assert (Hperm : Permutation
              (Map_values (desktops (this (exec (update dim ws) w)))
               ++ destroyCalls (exec (update dim ws) w))
              (Map_values (desktops (this w)) ++ destroyCalls w)).
    { rewrite Hc', Hp.
      rewrite (Permutation_app_comm called), <- !app_assoc.
      apply Permutation_app_head. apply Permutation_app_comm. }
    unfold lifecycle_ok. repeat split.
    + rewrite exec_update.
      replace (desktops (this _)) with
        (filter (fun e => negb (key_in (staleKeys dim ws (this w)) (fst e)))
           (desktops (this w))) by (destruct dim; reflexivity).
      unfold Map_keys in *. now apply NoDup_map_filter.
    + apply (Permutation_NoDup (l := map desktop_obj
               (Map_values (desktops (this w)) ++ destroyCalls w))); [|assumption].
      apply Permutation_map. now symmetry.
    + intros x Hx. apply (Permutation_in _ Hperm) in Hx. apply Hb in Hx.
      now rewrite exec_update.
Qed.

Lemma lifecycle_ok_run (ws0 : Workspace.t) (trace : list (Workspace.t * Call)) :
  no_teardown trace ->
  lifecycle_ok (exec (run shouldWorkOnDesktop trace) (start ws0)).
Proof.
  induction trace as [|[ws c] trace IH] using rev_ind; intros Hn.
  - apply lifecycle_ok_start.
  - rewrite run_snoc. apply lifecycle_ok_call.
    + intros ->. apply (Hn ws). apply in_app_iff. right. now left.
    + apply IH. intros ws' Hin. apply (Hn ws'). apply in_app_iff. now left.
Qed.
End Lifecycle.

Lemma NoDup_app_disjoint {A : Type} (l l' : list A) (x : A) :
  NoDup (l ++ l') -> In x l -> In x l' -> False.
Proof.
  induction l as [|y l IH]; simpl; intros Hnd Hl Hl'; [contradiction|].
  inversion Hnd as [|? ? Hy Hnd']; subst. destruct Hl as [->|Hl].
  - apply Hy, in_app_iff. now right.
  - now apply IH.
Qed.

(** In a run from the constructor without the teardown, [destroy] is called
    at most once on a desktop, a desktop [destroy] was called on is no
    longer in the map, and no desktop is stored under two keys. *)
Theorem destroyed_once_and_gone (f : KwinDesktop -> bool) (ws0 : Workspace.t)
    (trace : list (Workspace.t * Call)) :
  no_teardown trace ->
  let w := exec (run f trace) (start ws0) in
  NoDup (destroyCalls w)
  /\ NoDup (Map_values (desktops (this w)))
  /\ forall x, In x (destroyCalls w) -> ~ In x (Map_values (desktops (this w))).
Proof.
  intros Hn w. destruct (lifecycle_ok_run f ws0 trace Hn) as (_ & Ho & _).
  fold w in Ho. apply NoDup_map_inv in Ho. repeat split.
  - now apply NoDup_app_remove_l in Ho.
  - now apply NoDup_app_remove_r in Ho.
  - intros x Hx Hin. exact (NoDup_app_disjoint _ _ x Ho Hin Hx).
Qed.

Lemma destroyed_once_and_gone_witness :
  let ws := Workspace.mk ["A"%string] [Ex.D1; Ex.D2] [Ex.S1] "A"%string Ex.D1 Ex.S1 in
  let trace := [(Ex.ws0, CallGetDesktop "A" Ex.D1 Ex.S1);
                (Ex.ws0, CallGetDesktop "B" Ex.D1 Ex.S1);
                (ws, CallUpdate Activities)] in
  let w := exec (run Ex.all trace) (start Ex.ws0) in
  NoDup (destroyCalls w)
  /\ NoDup (Map_values (desktops (this w)))
  /\ forall x, In x (destroyCalls w) -> ~ In x (Map_values (desktops (this w))).
Proof.
  intros ws trace.
  apply (destroyed_once_and_gone Ex.all Ex.ws0 trace).
  intros ws' [E|[E|[E|[]]]]; discriminate E.
Defined.

(** Every desktop of the map, in a state that a run from the constructor
    reaches, is bound to the virtual desktop and to the screen of a triple
    whose key it is stored under, and the filter accepts its virtual
    desktop. *)
Theorem stored_desktop_is_bound_to_its_key (f : KwinDesktop -> bool) (ws0 : Workspace.t)
    (trace : list (Workspace.t * Call)) (k : string) (x : Desktop) :
  Map_get k (desktops (this (exec (run f trace) (start ws0)))) = Some x ->
  (exists a, k = getDesktopKey a (kwinDesktop x) (screen x))
  /\ f (kwinDesktop x) = true
  /\ desktop_obj x < allocated (exec (run f trace) (start ws0)).
Proof.
  intros Hg. apply Map_get_In in Hg.
  destruct (entry_origin f ws0 trace k x Hg)
    as (pre & ws & a & d & s & post & _ & Hk & Hf & _ & ->).
  simpl. repeat split; [exists a; exact Hk | exact Hf |].
  destruct (registry_ok_run f ws0 trace) as (_ & _ & Hb).
  apply (Hb (mkDesktop (allocated (exec (run f pre) (start ws0))) d s)).
  unfold Map_values.
  change (mkDesktop (allocated (exec (run f pre) (start ws0))) d s)
    with (snd (k, mkDesktop (allocated (exec (run f pre) (start ws0))) d s)).
  now apply in_map.
Qed.

Lemma stored_desktop_is_bound_to_its_key_witness :
  let trace := [(Ex.ws0, CallGetDesktop "A" Ex.D1 Ex.S1);
                (Ex.ws0, CallGetDesktop "B" Ex.D1 Ex.S1)] in
  let x := mkDesktop 1 Ex.D1 Ex.S1 in
  (exists a, "B|d1|HDMI-1"%string = getDesktopKey a (kwinDesktop x) (screen x))
  /\ Ex.all (kwinDesktop x) = true
  /\ desktop_obj x < allocated (exec (run Ex.all trace) (start Ex.ws0)).
Proof.
  intros trace x.
  apply (stored_desktop_is_bound_to_its_key Ex.all Ex.ws0 trace "B|d1|HDMI-1" x).
  reflexivity.
Defined.

(** ** What the queries yield *)

Lemma entries_at_In (w : World) (a : string) (d : KwinDesktop) (x : Desktop) :
  In x (entries_at w a d) <->
  exists s, In s (kwinScreens (this w))
            /\ Map_get (getDesktopKey a d s) (desktops (this w)) = Some x.
Proof.
  unfold entries_at. rewrite in_flat_map. split; intros (s & Hs & H); exists s; split; auto.
  - destruct (Map_get (getDesktopKey a d s) (desktops (this w))); [|contradiction].
    destruct H as [->|[]]. reflexivity.
  - rewrite H. now left.
Qed.

(** The activities [getDesktops] goes through: the array given or, for the
    empty array, the cached set. *)
Definition matched_activities (w : World) (activities : list string) : list string :=
  match activities with
  | [] => kwinActivities (this w)
  | _ :: _ => activities
  end.

Lemma result_getDesktops (activities : list string) (kwinDesktops' : list KwinDesktop)
    (w : World) :
  result (getDesktops activities kwinDesktops') w
  = matched_entries w (matched_activities w activities)
      (match kwinDesktops' with
       | [] => Iterator (kwinDesktops (this w))
       | _ :: _ => Array kwinDesktops'
       end).
Proof.
  unfold result. rewrite getDesktops_run.
  destruct activities, kwinDesktops'; reflexivity.
Qed.

(** [getDesktopsOnCurrentDesktopAndActivity] yields the desktops that the
    map holds under the key of the current activity, the current desktop and
    a cached screen, and no others.  The key decides: the entry may have
    been made for other objects that give the same key. *)
Theorem current_selection_yields_entries_of_cached_screens
    (ws : Workspace.t) (w : World) (x : Desktop) :
  In x (result (getDesktopsOnCurrentDesktopAndActivity ws) w) <->
  exists s, In s (kwinScreens (this w))
            /\ Map_get (getDesktopKey (Workspace.currentActivity ws)
                          (Workspace.currentDesktop ws) s) (desktops (this w)) = Some x.
Proof.
  unfold result. rewrite getDesktopsOnCurrentDesktopAndActivity_run. simpl.
  apply entries_at_In.
Qed.

(** [getDesktops] with an array of desktops that is not empty yields the
    desktops stored under the keys of a matched activity, a desktop of the
    array and a cached screen, and no others. *)
Theorem getDesktops_of_given_desktops (activities : list string)
    (kwinDesktops' : list KwinDesktop) (w : World) (x : Desktop) :
  kwinDesktops' <> [] ->
  (In x (result (getDesktops activities kwinDesktops') w) <->
   exists a d s,
     In a (matched_activities w activities) /\ In d kwinDesktops'
     /\ In s (kwinScreens (this w))
     /\ Map_get (getDesktopKey a d s) (desktops (this w)) = Some x).
Proof.
  intros Hne. rewrite result_getDesktops.
  destruct kwinDesktops' as [|d0 ds0]; [congruence|].
  rewrite matched_entries_Array, in_flat_map. split.
  - intros (a & Ha & Hx). apply in_flat_map in Hx as (d & Hd & Hx).
    apply entries_at_In in Hx as (s & Hs & Hg). exists a, d, s.
    repeat split; assumption.
  - intros (a & d & s & Ha & Hd & Hs & Hg). exists a. split; [assumption|].
    apply in_flat_map. exists d. split; [assumption|]. apply entries_at_In. eauto.
Qed.

Lemma getDesktops_of_given_desktops_witness :
  In (mkDesktop 1 Ex.D1 Ex.S1) (result (getDesktops [] [Ex.D1]) Ex.w2) <->
  exists a d s,
    In a (matched_activities Ex.w2 []) /\ In d [Ex.D1]
    /\ In s (kwinScreens (this Ex.w2))
    /\ Map_get (getDesktopKey a d s) (desktops (this Ex.w2)) = Some (mkDesktop 1 Ex.D1 Ex.S1).
Proof.
  apply (getDesktops_of_given_desktops [] [Ex.D1] Ex.w2 (mkDesktop 1 Ex.D1 Ex.S1)).
  discriminate.
Defined.

(** [getDesktops] with the empty array of desktops yields the desktops
    stored under the keys of the first matched activity, a cached desktop
    and a cached screen, and no others: the matched activities after the
    first yield nothing. *)
Theorem getDesktops_of_all_desktops (activities : list string) (w : World) (x : Desktop) :
  In x (result (getDesktops activities []) w) <->
  exists a rest d s,
    matched_activities w activities = a :: rest
    /\ In d (kwinDesktops (this w)) /\ In s (kwinScreens (this w))
    /\ Map_get (getDesktopKey a d s) (desktops (this w)) = Some x.
Proof.
  rewrite result_getDesktops. destruct (matched_activities w activities) as [|a rest].
  - simpl. split; [intros [] | intros (a & rest & _ & _ & E & _); discriminate E].
  - rewrite matched_entries_Iterator, in_flat_map. split.
    + intros (d & Hd & Hx). apply entries_at_In in Hx as (s & Hs & Hg).
      exists a, rest, d, s. repeat split; assumption.
    + intros (a' & rest' & d & s & E & Hd & Hs & Hg). injection E as <- <-.
      exists d. split; [assumption|]. apply entries_at_In. eauto.
Qed.

(** A desktop that [getCurrentDesktop] returns is yielded by
    [getDesktopsOnCurrentDesktopAndActivity] and by [getAllDesktops] right
    after, provided the active screen is a cached screen. *)
Theorem getCurrentDesktop_is_in_current_selection (f : KwinDesktop -> bool)
    (ws : Workspace.t) (w : World) :
  f (Workspace.currentDesktop ws) = true ->
  In (Workspace.activeScreen ws) (kwinScreens (this w)) ->
  let w' := exec (getCurrentDesktop f ws) w in
  exists x,
    result (getCurrentDesktop f ws) w = Some x
    /\ In x (result (getDesktopsOnCurrentDesktopAndActivity ws) w')
    /\ In x (result getAllDesktops w').
Proof.
  intros Hf Hs w'. subst w'. unfold getCurrentDesktop.
  destruct (getDesktop_stored f (Workspace.currentActivity ws) (Workspace.currentDesktop ws)
              (Workspace.activeScreen ws) w Hf) as (x & Hr & Hg).
  exists x. split; [exact Hr|]. split.
  - unfold result at 1. rewrite getDesktopsOnCurrentDesktopAndActivity_run. simpl.
    apply entries_at_In. exists (Workspace.activeScreen ws). split; [|exact Hg].
    destruct (getDesktop_keeps_cached_sets f (Workspace.currentActivity ws)
                (Workspace.currentDesktop ws) (Workspace.activeScreen ws) w) as (_ & _ & ->).
    exact Hs.
  - unfold result at 1. rewrite getAllDesktops_run. simpl.
    apply Map_get_In in Hg. unfold Map_values.
    change x with (snd (getDesktopKey (Workspace.currentActivity ws)
                          (Workspace.currentDesktop ws) (Workspace.activeScreen ws), x)).
    now apply in_map.
Qed.

Lemma getCurrentDesktop_is_in_current_selection_witness :
  let w' := exec (getCurrentDesktop Ex.all Ex.ws0) Ex.w0 in
  exists x,
    result (getCurrentDesktop Ex.all Ex.ws0) Ex.w0 = Some x
    /\ In x (result (getDesktopsOnCurrentDesktopAndActivity Ex.ws0) w')
    /\ In x (result getAllDesktops w').
Proof.
  apply (getCurrentDesktop_is_in_current_selection Ex.all Ex.ws0 Ex.w0).
  - reflexivity.
  - vm_compute. tauto.
Defined.

(** The teardown leaves the entries in the map, so a lookup after it returns
    a desktop on which [destroy] has been called. *)
Theorem getDesktop_after_teardown_returns_destroyed (f : KwinDesktop -> bool)
    (a : string) (d : KwinDesktop) (s : Output) (w : World) (x : Desktop) :
  f d = true ->
  Map_get (getDesktopKey a d s) (desktops (this w)) = Some x ->
  let w' := exec destroy w in
  getDesktop f a d s w' = (Some x, w') /\ In x (destroyCalls w').
Proof.
  intros Hf Hg w'. subst w'. rewrite exec_destroy. split.
  - now apply getDesktop_hit.
  - simpl. apply in_app_iff. right. apply Map_get_In in Hg. unfold Map_values.
    change x with (snd (getDesktopKey a d s, x)). now apply in_map.
Qed.

Lemma getDesktop_after_teardown_returns_destroyed_witness :
  let w' := exec destroy Ex.w2 in
  getDesktop Ex.all "A" Ex.D1 Ex.S1 w' = (Some (mkDesktop 0 Ex.D1 Ex.S1), w')
  /\ In (mkDesktop 0 Ex.D1 Ex.S1) (destroyCalls w').
Proof.
  apply (getDesktop_after_teardown_returns_destroyed Ex.all "A" Ex.D1 Ex.S1 Ex.w2
           (mkDesktop 0 Ex.D1 Ex.S1)); reflexivity.
Defined.

(** For a client on one activity and one desktop whose output is a cached
    screen, the desktop [getDesktopForClient] returns is among those
    [getDesktopsForClient] yields right after. *)
Theorem getDesktopForClient_is_among_getDesktopsForClient (f : KwinDesktop -> bool)
    (kwinClient : KwinClient.t) (a : string) (d : KwinDesktop) (w : World) :
  KwinClient.activities kwinClient = [a] ->
  KwinClient.desktops kwinClient = [d] ->
  f d = true ->
  In (KwinClient.output kwinClient) (kwinScreens (this w)) ->
  let w' := exec (getDesktopForClient f kwinClient) w in
  exists x,
    result (getDesktopForClient f kwinClient) w = Some x
    /\ In x (result (getDesktopsForClient kwinClient) w').
Proof.
  intros Ha Hd Hf Hs w'. subst w'.
  unfold getDesktopForClient, getDesktopsForClient. rewrite Ha, Hd.
  destruct (getDesktop_stored f a d (KwinClient.output kwinClient) w Hf) as (x & Hr & Hg).
  exists x. split; [exact Hr|].
  rewrite result_getDesktops, matched_entries_Array. simpl. rewrite !app_nil_r.
  apply entries_at_In. exists (KwinClient.output kwinClient). split; [|exact Hg].
  destruct (getDesktop_keeps_cached_sets f a d (KwinClient.output kwinClient) w)
    as (_ & _ & ->).
  exact Hs.
Qed.

Lemma getDesktopForClient_is_among_getDesktopsForClient_witness :
  let c := KwinClient.mk ["B"%string] [Ex.D2] Ex.S1 in
  let w' := exec (getDesktopForClient Ex.all c) Ex.w2 in
  exists x,
    result (getDesktopForClient Ex.all c) Ex.w2 = Some x
    /\ In x (result (getDesktopsForClient c) w').
Proof.
  intros c.
  apply (getDesktopForClient_is_among_getDesktopsForClient Ex.all c "B" Ex.D2 Ex.w2).
  - reflexivity.
  - reflexivity.
  - reflexivity.
  - vm_compute. tauto.
Defined.
